(** * Voting: a shallow embedding of the poll ledger contract

    The contract [Voting] (Solidity ^0.8.19) is embedded as functions in a
    small transaction monad: contract storage is threaded explicitly, a failed
    [require] or a failed arithmetic or bounds check aborts the call, and the
    caller of an aborted call keeps the storage it had before ([exec]).

    Solidity's [uint256] is modelled by [N] with the range check of checked
    arithmetic written out ([checked_add], [checked_mul]); [address] is [N]
    below [2^160]; [mapping(K => V)] is a finite map read with the zero value
    as default; dynamic arrays are lists accessed through bounds-checked
    reads and writes. *)

From Stdlib Require Import NArith String Lia.
From stdpp Require Import base numbers option list gmap strings relations pretty.

Open Scope string_scope.
Open Scope list_scope.
Open Scope N_scope.

(** ** Machine integers, errors and results *)

Definition MAX_UINT256 : N := 2 ^ 256 - 1.
Definition MAX_ADDRESS : N := 2 ^ 160 - 1.

(** [Revert] is a failed [require] with its message; [Panic] is the
    compiler-inserted check ([0x11] arithmetic overflow, [0x32] array index
    out of bounds). *)
Inductive Error : Type :=
| Revert (reason : string)
| Panic (code : N).

Inductive Result (A : Type) : Type :=
| Ok (a : A)
| Err (e : Error).
Arguments Ok {A} a.
Arguments Err {A} e.

Definition PANIC_OVERFLOW : N := 17.
Definition PANIC_INDEX : N := 50.

Definition checked_add (a b : N) : Result N :=
  if a + b <=? MAX_UINT256 then Ok (a + b) else Err (Panic PANIC_OVERFLOW).

Definition checked_mul (a b : N) : Result N :=
  if a * b <=? MAX_UINT256 then Ok (a * b) else Err (Panic PANIC_OVERFLOW).

(** [arr[i]] on an array: a read outside the bounds panics. *)
Definition array_get {A} (arr : list A) (i : N) : Result A :=
  match arr !! N.to_nat i with
  | Some x => Ok x
  | None => Err (Panic PANIC_INDEX)
  end.

(** [arr[i] = x]. *)
Definition array_set {A} (arr : list A) (i : N) (x : A) : Result (list A) :=
  if i <? N.of_nat (length arr) then Ok (<[N.to_nat i := x]> arr)
  else Err (Panic PANIC_INDEX).

(** [arr.length] as a [uint256]. *)
Definition len {A} (arr : list A) : N := N.of_nat (length arr).

(** [bytes(s).length]. *)
Definition bytes_length (s : string) : N := N.of_nat (String.length s).

(** Reading a [mapping]: an absent key reads as the zero value. *)
Definition mapping_get {V} (zero : V) (m : gmap N V) (k : N) : V :=
  default zero (m !! k).

(** ** Storage *)

Module Poll.

Record t : Type := mk {
  id : N;
  question : string;
  options : list string;
  voteCounts : list N;
  creator : N;
  endTime : N;
  active : bool;
  hasVoted : gmap N bool;
  voterChoice : gmap N N
}.

(** The value of a storage slot that was never written. *)
Definition zero : t := mk 0 "" [] [] 0 0 false ∅ ∅.

Definition set_id (v : N) (p : t) : t :=
  mk v (question p) (options p) (voteCounts p) (creator p) (endTime p)
     (active p) (hasVoted p) (voterChoice p).
Definition set_question (v : string) (p : t) : t :=
  mk (id p) v (options p) (voteCounts p) (creator p) (endTime p)
     (active p) (hasVoted p) (voterChoice p).
Definition set_options (v : list string) (p : t) : t :=
  mk (id p) (question p) v (voteCounts p) (creator p) (endTime p)
     (active p) (hasVoted p) (voterChoice p).
Definition set_voteCounts (v : list N) (p : t) : t :=
  mk (id p) (question p) (options p) v (creator p) (endTime p)
     (active p) (hasVoted p) (voterChoice p).
Definition set_creator (v : N) (p : t) : t :=
  mk (id p) (question p) (options p) (voteCounts p) v (endTime p)
     (active p) (hasVoted p) (voterChoice p).
Definition set_endTime (v : N) (p : t) : t :=
  mk (id p) (question p) (options p) (voteCounts p) (creator p) v
     (active p) (hasVoted p) (voterChoice p).
Definition set_active (v : bool) (p : t) : t :=
  mk (id p) (question p) (options p) (voteCounts p) (creator p) (endTime p)
     v (hasVoted p) (voterChoice p).
Definition set_hasVoted (v : gmap N bool) (p : t) : t :=
  mk (id p) (question p) (options p) (voteCounts p) (creator p) (endTime p)
     (active p) v (voterChoice p).
Definition set_voterChoice (v : gmap N N) (p : t) : t :=
  mk (id p) (question p) (options p) (voteCounts p) (creator p) (endTime p)
     (active p) (hasVoted p) v.

End Poll.

Record Ledger : Type := mkLedger {
  pollCount : N;
  polls : gmap N Poll.t
}.

(** The storage of a freshly deployed contract. *)
Definition genesis : Ledger := mkLedger 0 ∅.

(** [polls[k]]: the zero poll when the slot was never written. *)
Definition poll_at (s : Ledger) (k : N) : Poll.t :=
  mapping_get Poll.zero (polls s) k.

Definition store_poll (k : N) (p : Poll.t) (s : Ledger) : Ledger :=
  mkLedger (pollCount s) (<[k := p]> (polls s)).

Definition store_pollCount (c : N) (s : Ledger) : Ledger :=
  mkLedger c (polls s).

(** ** Call environment, events and the transaction monad *)

Record Env : Type := mkEnv {
  msg_sender : N;
  block_timestamp : N
}.

Inductive Event : Type :=
| PollCreated (pollId : N) (question : string) (creator : N) (endTime : N)
| VoteCast (pollId : N) (voter : N) (optionIndex : N)
| PollEnded (pollId : N).

(** A call reads the environment, threads the storage and logs events; an
    error carries no storage: whatever was written before it is dropped. *)
Definition Tx (A : Type) : Type :=
  Env -> Ledger -> Result (A * Ledger * list Event).

Definition ret {A} (a : A) : Tx A := fun _ s => Ok (a, s, []).

Definition bind {A B} (m : Tx A) (k : A -> Tx B) : Tx B :=
  fun env s =>
    match m env s with
    | Ok (a, s1, ev1) =>
        match k a env s1 with
        | Ok (b, s2, ev2) => Ok (b, s2, ev1 ++ ev2)
        | Err e => Err e
        end
    | Err e => Err e
    end.

Notation "x <- m ;; k" := (bind m (fun x => k))
  (at level 100, m at next level, right associativity).
Notation "m ;; k" := (bind m (fun _ => k))
  (at level 100, right associativity).

Definition lift {A} (r : Result A) : Tx A :=
  fun _ s => match r with Ok a => Ok (a, s, []) | Err e => Err e end.

Definition require (cond : bool) (reason : string) : Tx unit :=
  fun _ s => if cond then Ok (tt, s, []) else Err (Revert reason).

Definition emit (e : Event) : Tx unit := fun _ s => Ok (tt, s, [e]).

Definition sender : Tx N := fun env s => Ok (msg_sender env, s, []).
Definition timestamp : Tx N := fun env s => Ok (block_timestamp env, s, []).

Definition sload_pollCount : Tx N := fun _ s => Ok (pollCount s, s, []).
Definition sstore_pollCount (c : N) : Tx unit :=
  fun _ s => Ok (tt, store_pollCount c s, []).
Definition sload_poll (k : N) : Tx Poll.t := fun _ s => Ok (poll_at s k, s, []).
(** A write through a storage pointer to [polls[k]]. *)
Definition update_poll (k : N) (f : Poll.t -> Poll.t) : Tx unit :=
  fun _ s => Ok (tt, store_poll k (f (poll_at s k)) s, []).

(** [for (uint256 i = lo; i < hi; i++) body]: in every loop of the contract
    the bound is fixed while the loop runs, so the loop test holds for
    exactly the next [n = hi - lo] values of [i]; [n] is the recursion
    argument.  The increment is checked like every [uint256] addition, also
    the one after the last iteration.  [a] carries the local variables the
    body assigns. *)
Fixpoint for_loop {A} (n : nat) (i : N) (body : N -> A -> Tx A) (a : A) : Tx A :=
  match n with
  | O => ret a
  | S n' =>
      a' <- body i a ;;
      i' <- lift (checked_add i 1) ;;
      for_loop n' i' body a'
  end.

(** What the sender of a transaction observes: on an error the storage is
    the one before the call. *)
Definition exec {A} (tx : Tx A) (env : Env) (s : Ledger) : Result A * Ledger :=
  match tx env s with
  | Ok (a, s', _) => (Ok a, s')
  | Err e => (Err e, s)
  end.

(** ** The contract *)

Module Voting.

(** *** Modifiers *)

Definition pollExists (_pollId : N) : Tx unit :=
  count <- sload_pollCount ;;
  require ((0 <? _pollId) && (_pollId <=? count)) "Poll does not exist".

Definition pollActive (_pollId : N) : Tx unit :=
  poll <- sload_poll _pollId ;;
  require (Poll.active poll) "Poll is not active" ;;
  now <- timestamp ;;
  require (now <? Poll.endTime poll) "Poll has ended".

Definition hasNotVoted (_pollId : N) : Tx unit :=
  poll <- sload_poll _pollId ;;
  who <- sender ;;
  require (negb (mapping_get false (Poll.hasVoted poll) who)) "Already voted".

(** *** Transactions *)

(** The body of the loop of [createPoll]; [newPoll] is the key of the
    storage slot the pointer [newPoll] refers to. *)
Definition createPoll_push (_options : list string) (newPoll : N)
    (i : N) (_ : unit) : Tx unit :=
  option <- lift (array_get _options i) ;;
  require (0 <? bytes_length option) "Option cannot be empty" ;;
  update_poll newPoll (fun p => Poll.set_options (Poll.options p ++ [option]) p) ;;
  update_poll newPoll (fun p => Poll.set_voteCounts (Poll.voteCounts p ++ [0]) p).

Definition createPoll (_question : string) (_options : list string)
    (_durationInMinutes : N) : Tx N :=
  require (0 <? bytes_length _question) "Question cannot be empty" ;;
  require (2 <=? len _options) "Need at least 2 options" ;;
  require (len _options <=? 10) "Maximum 10 options allowed" ;;
  require (0 <? _durationInMinutes) "Duration must be positive" ;;
  require (_durationInMinutes <=? 10080) "Max duration is 7 days" ;;
  count <- sload_pollCount ;;
  count' <- lift (checked_add count 1) ;;
  sstore_pollCount count' ;;
  newPoll <- sload_pollCount ;;
  update_poll newPoll (Poll.set_id newPoll) ;;
  update_poll newPoll (Poll.set_question _question) ;;
  who <- sender ;;
  update_poll newPoll (Poll.set_creator who) ;;
  now <- timestamp ;;
  duration <- lift (checked_mul _durationInMinutes 60) ;;
  deadline <- lift (checked_add now duration) ;;
  update_poll newPoll (Poll.set_endTime deadline) ;;
  update_poll newPoll (Poll.set_active true) ;;
  for_loop (length _options) 0 (createPoll_push _options newPoll) tt ;;
  poll <- sload_poll newPoll ;;
  emit (PollCreated newPoll _question who (Poll.endTime poll)) ;;
  ret newPoll.

Definition vote (_pollId _optionIndex : N) : Tx unit :=
  pollExists _pollId ;;
  pollActive _pollId ;;
  hasNotVoted _pollId ;;
  poll <- sload_poll _pollId ;;
  require (_optionIndex <? len (Poll.options poll)) "Invalid option" ;;
  who <- sender ;;
  update_poll _pollId
    (fun p => Poll.set_hasVoted (<[who := true]> (Poll.hasVoted p)) p) ;;
  update_poll _pollId
    (fun p => Poll.set_voterChoice (<[who := _optionIndex]> (Poll.voterChoice p)) p) ;;
  poll <- sload_poll _pollId ;;
  count <- lift (array_get (Poll.voteCounts poll) _optionIndex) ;;
  count' <- lift (checked_add count 1) ;;
  update_poll _pollId
    (fun p => Poll.set_voteCounts (<[N.to_nat _optionIndex := count']> (Poll.voteCounts p)) p) ;;
  emit (VoteCast _pollId who _optionIndex).

Definition endPoll (_pollId : N) : Tx unit :=
  pollExists _pollId ;;
  poll <- sload_poll _pollId ;;
  who <- sender ;;
  require (N.eqb who (Poll.creator poll)) "Only creator can end poll" ;;
  require (Poll.active poll) "Poll already ended" ;;
  update_poll _pollId (Poll.set_active false) ;;
  emit (PollEnded _pollId).

(** *** Views *)

(** The values [getPoll] returns, under the names of its return list. *)
Record PollInfo : Type := mkPollInfo {
  info_id : N;
  info_question : string;
  info_options : list string;
  info_voteCounts : list N;
  info_creator : N;
  info_endTime : N;
  info_active : bool;
  info_totalVotes : N
}.

Definition getPoll_add (counts : list N) (i : N) (total : N) : Tx N :=
  count <- lift (array_get counts i) ;;
  lift (checked_add total count).

Definition getPoll (_pollId : N) : Tx PollInfo :=
  pollExists _pollId ;;
  poll <- sload_poll _pollId ;;
  total <- for_loop (length (Poll.voteCounts poll)) 0
             (getPoll_add (Poll.voteCounts poll)) 0 ;;
  now <- timestamp ;;
  ret (mkPollInfo (Poll.id poll) (Poll.question poll) (Poll.options poll)
         (Poll.voteCounts poll) (Poll.creator poll) (Poll.endTime poll)
         (Poll.active poll && (now <? Poll.endTime poll)) total).

Definition hasVoted (_pollId _voter : N) : Tx bool :=
  pollExists _pollId ;;
  poll <- sload_poll _pollId ;;
  ret (mapping_get false (Poll.hasVoted poll) _voter).

Definition getVoterChoice (_pollId _voter : N) : Tx N :=
  pollExists _pollId ;;
  poll <- sload_poll _pollId ;;
  require (mapping_get false (Poll.hasVoted poll) _voter) "Address has not voted" ;;
  poll <- sload_poll _pollId ;;
  ret (mapping_get 0 (Poll.voterChoice poll) _voter).

(** [polls[i].active && block.timestamp < polls[i].endTime], the test of both
    passes of [getActivePolls]. *)
Definition active_now (i : N) : Tx bool :=
  poll <- sload_poll i ;;
  now <- timestamp ;;
  ret (Poll.active poll && (now <? Poll.endTime poll)).

Definition getActivePolls_count (i : N) (activeCount : N) : Tx N :=
  open <- active_now i ;;
  if open then lift (checked_add activeCount 1) else ret activeCount.

Definition getActivePolls_collect (i : N) (acc : list N * N) : Tx (list N * N) :=
  let '(activePollIds, index) := acc in
  open <- active_now i ;;
  if open then
    activePollIds' <- lift (array_set activePollIds index i) ;;
    index' <- lift (checked_add index 1) ;;
    ret (activePollIds', index')
  else ret (activePollIds, index).

Definition getActivePolls : Tx (list N) :=
  count <- sload_pollCount ;;
  activeCount <- for_loop (N.to_nat count) 1 getActivePolls_count 0 ;;
  acc <- for_loop (N.to_nat count) 1 getActivePolls_collect
           (replicate (N.to_nat activeCount) 0, 0) ;;
  ret (fst acc).

Definition getWinner_scan (counts : list N) (i : N) (acc : N * N) : Tx (N * N) :=
  let '(maxVotes, winnerIndex) := acc in
  count <- lift (array_get counts i) ;;
  if maxVotes <? count then
    count' <- lift (array_get counts i) ;;
    ret (count', i)
  else ret (maxVotes, winnerIndex).

Definition getWinner (_pollId : N) : Tx (N * string * N) :=
  pollExists _pollId ;;
  poll <- sload_poll _pollId ;;
  acc <- for_loop (length (Poll.voteCounts poll)) 0
           (getWinner_scan (Poll.voteCounts poll)) (0, 0) ;;
  text <- lift (array_get (Poll.options poll) (snd acc)) ;;
  ret (snd acc, text, fst acc).

End Voting.

Import Voting.


(** ** Reachable storage

    A transaction sent by an externally owned account: the sender is an
    [address] and the block timestamp a [uint256]. *)
Definition wf_env (env : Env) : Prop :=
  msg_sender env <= MAX_ADDRESS /\ block_timestamp env <= MAX_UINT256.

(** One successful state-changing call. *)
Inductive step (s : Ledger) : Ledger -> Prop :=
| step_createPoll env q opts d k s' ev :
    wf_env env -> createPoll q opts d env s = Ok (k, s', ev) -> step s s'
| step_vote env k i s' ev :
    wf_env env -> vote k i env s = Ok (tt, s', ev) -> step s s'
| step_endPoll env k s' ev :
    wf_env env -> endPoll k env s = Ok (tt, s', ev) -> step s s'.

Inductive reachable : Ledger -> Prop :=
| reachable_genesis : reachable genesis
| reachable_step s s' : reachable s -> step s s' -> reachable s'.

(** [1 <= k <= pollCount], the test of the modifier [pollExists]. *)
Definition exists_poll (s : Ledger) (k : N) : bool :=
  (0 <? k) && (k <=? pollCount s).

(** The identities a poll records as having voted. *)
Definition voters (p : Poll.t) : gset N :=
  filter (fun a => mapping_get false (Poll.hasVoted p) a = true)
         (dom (Poll.hasVoted p)).

(** The sum of an array of counts, as a mathematical number. *)
Definition sum_counts (l : list N) : N := foldr N.add 0 l.

(** The poll [vote] leaves in [polls[k]]. *)
Definition voted_poll (who i count : N) (p : Poll.t) : Poll.t :=
  Poll.mk (Poll.id p) (Poll.question p) (Poll.options p)
    (<[N.to_nat i := count + 1]> (Poll.voteCounts p))
    (Poll.creator p) (Poll.endTime p) (Poll.active p)
    (<[who := true]> (Poll.hasVoted p))
    (<[who := i]> (Poll.voterChoice p)).

(** ** What the calls compute

    Closed forms of the polls and lists the loops of the contract build;
    the proofs below relate each loop to its closed form. *)

(** [options.push(o); voteCounts.push(0)] on a poll. *)
Definition push_option (o : string) (p : Poll.t) : Poll.t :=
  Poll.set_voteCounts (Poll.voteCounts p ++ [0])
    (Poll.set_options (Poll.options p ++ [o]) p).

(** [bytes(o).length > 0]. *)
Definition nonempty (o : string) : bool := 0 <? bytes_length o.

(** The poll [createPoll] leaves in the slot [polls[k]] that held [p0]. *)
Definition created_poll (k : N) (q : string) (opts : list string)
    (who deadline : N) (p0 : Poll.t) : Poll.t :=
  Poll.mk k q (Poll.options p0 ++ opts)
    (Poll.voteCounts p0 ++ replicate (length opts) 0)
    who deadline true (Poll.hasVoted p0) (Poll.voterChoice p0).

(** [w] is the first index at which [counts] takes its maximum [m]. *)
Definition leftmost_max (counts : list N) (w m : N) : Prop :=
  counts !! N.to_nat w = Some m /\
  (forall j c, counts !! j = Some c -> c <= m) /\
  (forall j c, (j < N.to_nat w)%nat -> counts !! j = Some c -> c < m).

(** What the scan knows after [j] iterations. *)
Definition winner_inv (counts : list N) (j : nat) (acc : N * N) : Prop :=
  let '(m, w) := acc in
  (w = 0 /\ m = 0 /\ forall i c, (i < j)%nat -> counts !! i = Some c -> c = 0) \/
  ((N.to_nat w < j)%nat /\ counts !! N.to_nat w = Some m /\
   (forall i c, (i < j)%nat -> counts !! i = Some c -> c <= m) /\
   (forall i c, (i < N.to_nat w)%nat -> counts !! i = Some c -> c < m)).

(** The test of both passes of [getActivePolls] on poll [k]. *)
Definition open_at (env : Env) (s : Ledger) (k : N) : bool :=
  Poll.active (poll_at s k) && (block_timestamp env <? Poll.endTime (poll_at s k)).

(** The ids among [1 .. n] that pass the test, in the order of the scan. *)
Fixpoint open_ids (env : Env) (s : Ledger) (n : nat) : list N :=
  match n with
  | O => []
  | S n' =>
      open_ids env s n' ++
      (if open_at env s (N.of_nat n) then [N.of_nat n] else [])
  end.

(** ** The storage invariant *)

Record poll_ok (k : N) (p : Poll.t) : Prop := {
  ok_id : Poll.id p = k;
  ok_lengths : length (Poll.options p) = length (Poll.voteCounts p);
  ok_options : (2 <= length (Poll.options p) <= 10)%nat;
  ok_nonempty : forallb nonempty (Poll.options p) = true;
  ok_sum : sum_counts (Poll.voteCounts p) = N.of_nat (size (voters p));
  ok_voters : forall a, a ∈ voters p -> a <= MAX_ADDRESS;
  ok_choice : forall a, a ∈ voters p ->
                mapping_get 0 (Poll.voterChoice p) a < len (Poll.options p)
}.

Record ledger_ok (s : Ledger) : Prop := {
  ok_count : pollCount s <= MAX_UINT256;
  ok_present : forall k, exists_poll s k = true ->
                 exists p, polls s !! k = Some p /\ poll_ok k p;
  ok_absent : forall k, exists_poll s k = false -> polls s !! k = None
}.

(** ** The error taxonomy

    The contract reports a failed [require] by its reason string.  The kinds
    below are the names the specification gives to these failures;
    [error_kind] files the reason strings of the contract under these kinds.
    A [Panic] is none of them, and neither is the reason of
    [getVoterChoice], which the taxonomy does not name. *)
Inductive ErrorKind : Type :=
| ValidationError
| NotFoundError
| NotActiveError
| DuplicateVoteError
| InvalidOptionError
| AuthorizationError
| AlreadyEndedError.

Definition reason_kinds : list (string * ErrorKind) :=
  [ ("Question cannot be empty", ValidationError);
    ("Need at least 2 options", ValidationError);
    ("Maximum 10 options allowed", ValidationError);
    ("Duration must be positive", ValidationError);
    ("Max duration is 7 days", ValidationError);
    ("Option cannot be empty", ValidationError);
    ("Poll does not exist", NotFoundError);
    ("Poll is not active", NotActiveError);
    ("Poll has ended", NotActiveError);
    ("Already voted", DuplicateVoteError);
    ("Invalid option", InvalidOptionError);
    ("Only creator can end poll", AuthorizationError);
    ("Poll already ended", AlreadyEndedError) ].

Fixpoint lookup_reason (reason : string) (table : list (string * ErrorKind))
    : option ErrorKind :=
  match table with
  | [] => None
  | (r, kind) :: table' =>
      if String.eqb reason r then Some kind else lookup_reason reason table'
  end.

Definition error_kind (e : Error) : option ErrorKind :=
  match e with
  | Revert reason => lookup_reason reason reason_kinds
  | Panic _ => None
  end.

(** ** Call sequences

    A state-changing call as data, and the storage a sequence of calls
    leaves behind; rejected calls leave it as it is. *)
Inductive Call : Type :=
| CreatePoll (question : string) (options : list string) (durationInMinutes : N)
| Vote (pollId optionIndex : N)
| EndPoll (pollId : N).

Definition run_call (env : Env) (c : Call) (s : Ledger) : Ledger :=
  match c with
  | CreatePoll q opts d => snd (exec (createPoll q opts d) env s)
  | Vote k i => snd (exec (vote k i) env s)
  | EndPoll k => snd (exec (endPoll k) env s)
  end.

Definition run_calls (calls : list (Env * Call)) (s : Ledger) : Ledger :=
  foldl (fun s '(env, c) => run_call env c s) s calls.

(** ** Demonstration storages

    The scenario of the contract's tests: a poll with four options, created
    by account 100 at time 1000 to run for 60 minutes, and three voters. *)
Definition alice : Env := mkEnv 100 1000.
Definition demo_options : list string := ["JS"; "Python"; "Rust"; "Go"].
Definition demo_created : Ledger :=
  run_calls [(alice, CreatePoll "best language?" demo_options 60)] genesis.
Definition demo_voted2 : Ledger :=
  run_calls [(mkEnv 1 1001, Vote 1 0); (mkEnv 2 1002, Vote 1 0)] demo_created.
Definition demo_voted3 : Ledger :=
  run_calls [(mkEnv 3 1003, Vote 1 1)] demo_voted2.
Definition demo_ended : Ledger :=
  run_calls [(mkEnv 100 1500, EndPoll 1)] demo_voted3.

(** A poll whose counts are [2; 1; 2]. *)
Definition demo_tie : Ledger :=
  run_calls [ (alice, CreatePoll "tie?" ["A"; "B"; "C"] 60);
              (mkEnv 1 1001, Vote 1 0); (mkEnv 2 1002, Vote 1 2);
              (mkEnv 3 1003, Vote 1 1); (mkEnv 4 1004, Vote 1 2);
              (mkEnv 5 1005, Vote 1 0) ] genesis.

(** Three polls: the first open until 4600, the second open until 1060 and
    never ended, the third ended by its creator. *)
Definition demo_three : Ledger :=
  run_calls [ (alice, CreatePoll "one?" ["yes"; "no"] 60);
              (alice, CreatePoll "two?" ["yes"; "no"] 1);
              (alice, CreatePoll "three?" ["yes"; "no"] 60);
              (alice, EndPoll 3) ] genesis.

(** The reasons of the six validation checks of [createPoll], in the order
    of the checks. *)
Definition createPoll_reasons : list string :=
  [ "Question cannot be empty"; "Need at least 2 options";
    "Maximum 10 options allowed"; "Duration must be positive";
    "Max duration is 7 days"; "Option cannot be empty" ].

(** ** Histories

    [steps s s']: some sequence of successful state-changing calls leads
    from [s] to [s']. *)
Definition steps : Ledger -> Ledger -> Prop := rtc step.

(** The recorded voters of a poll whose stored choice is option [i]. *)
Definition choosers (p : Poll.t) (i : N) : gset N :=
  filter (fun a => mapping_get 0 (Poll.voterChoice p) a = i) (voters p).

(** What holds of the creator and the deadline of a stored poll. *)
Definition poll_origin_ok (p : Poll.t) : Prop :=
  Poll.creator p <= MAX_ADDRESS /\
  60 <= Poll.endTime p /\ Poll.endTime p <= MAX_UINT256.

(** Each count is the number of recorded voters with that choice. *)
Definition poll_histogram_ok (p : Poll.t) : Prop :=
  forall (i : nat) count,
    Poll.voteCounts p !! i = Some count ->
    count = N.of_nat (size (choosers p (N.of_nat i))).

(** A call that, when it returns, hands back the storage it was given and
    logs nothing. *)
Definition read_only {A} (m : Tx A) : Prop :=
  forall env s a s' ev, m env s = Ok (a, s', ev) -> s' = s /\ ev = [].

(** ** The client

    The pure parts of the React client [App.js] that compute with what the
    contract takes and returns.  A JavaScript number is modelled by an
    integer; this is exact for the integers below [2^53] in absolute value,
    which is where the theorems about these functions are stated.  A
    JavaScript string is modelled by a [string]; the only string operations
    used are the comparison with the empty string and [trim]. *)
Module App.

(** The largest range of integers a JavaScript number holds exactly. *)
Definition MAX_SAFE_INTEGER : Z := (2 ^ 53 - 1)%Z.

(** [getTimeLeft(endTime)], with the value of [Date.now()] (milliseconds) as
    an argument.  [Math.floor(a / b)] is the floor division [/], [%] is the
    remainder with the sign of the dividend, [Z.rem]; a template literal
    prints an integer in decimal. *)
Definition getTimeLeft (date_now : Z) (endTime : Z) : string :=
  let now := (date_now / 1000)%Z in
  let diff := (endTime - now)%Z in
  if (diff <=? 0)%Z then "Ended"
  else
    let hours := (diff / 3600)%Z in
    let minutes := (Z.rem diff 3600 / 60)%Z in
    if (0 <? hours)%Z
    then pretty hours +:+ "h " +:+ pretty minutes +:+ "m left"
    else pretty minutes +:+ "m left".

(** [addOption], as the new value of the state [options]: [setOptions] is
    called only under the test. *)
Definition addOption (options : list string) : list string :=
  if (length options <? 10)%nat then options ++ [""] else options.

(** [options.filter((_, i) => i !== index)]: [i] counts from [from]. *)
Fixpoint filter_index_ne (index : nat) (from : nat) (options : list string)
    : list string :=
  match options with
  | [] => []
  | o :: rest =>
      if bool_decide (from <> index)
      then o :: filter_index_ne index (S from) rest
      else filter_index_ne index (S from) rest
  end.

(** [removeOption(index)], as the new value of the state [options]. *)
Definition removeOption (index : nat) (options : list string) : list string :=
  if (2 <? length options)%nat then filter_index_ne index 0 options
  else options.

(** [handleSubmit]: the arguments it passes to [onCreatePoll], or [None]
    when it does not call it.  [trim] is [String.prototype.trim]. *)
Definition handleSubmit (trim : string -> string)
    (question : string) (options : list string) (duration : N)
    : option (string * list string * N) :=
  let validOptions := filter (fun opt => trim opt <> "") options in
  if bool_decide (trim question <> "") && (2 <=? length validOptions)%nat
  then Some (question, validOptions, duration)
  else None.

(** [PollCard]: [poll.voteCounts.reduce((a, b) => a + b, 0)]. *)
Definition totalVotes (voteCounts : list N) : N :=
  foldl N.add 0 voteCounts.

(** [Math.max(...voteCounts)] for counts, which are not negative; on the
    empty array JavaScript gives [-Infinity], which no count equals. *)
Definition max_count (voteCounts : list N) : option N :=
  match voteCounts with
  | [] => None
  | c :: rest => Some (foldl N.max c rest)
  end.

(** [PollCard]: [voteCounts[index] === Math.max(...voteCounts) &&
    totalVotes > 0]; an index outside the array reads [undefined]. *)
Definition isWinning (voteCounts : list N) (index : nat) : bool :=
  match voteCounts !! index, max_count voteCounts with
  | Some votes, Some top => (votes =? top) && (0 <? totalVotes voteCounts)
  | _, _ => false
  end.

End App.

(** * Proofs *)

(** ** Storage lemmas *)

Lemma poll_at_store_eq k p s : poll_at (store_poll k p s) k = p.
Proof. unfold poll_at, mapping_get, store_poll; simpl. by rewrite lookup_insert_eq. Qed.

Lemma poll_at_store_ne k k' p s :
  k <> k' -> poll_at (store_poll k p s) k' = poll_at s k'.
Proof.
  intros Hne. unfold poll_at, mapping_get, store_poll; simpl.
  by rewrite lookup_insert_ne.
Qed.

Lemma store_poll_twice k p q s :
  store_poll k q (store_poll k p s) = store_poll k q s.
Proof. unfold store_poll; simpl. by rewrite insert_insert_eq. Qed.

Lemma pollCount_store_poll k p s : pollCount (store_poll k p s) = pollCount s.
Proof. reflexivity. Qed.

Lemma mapping_get_insert_eq {V} (z : V) (m : gmap N V) k v :
  mapping_get z (<[k := v]> m) k = v.
Proof. unfold mapping_get. by rewrite lookup_insert_eq. Qed.

Lemma mapping_get_insert_ne {V} (z : V) (m : gmap N V) k k' v :
  k <> k' -> mapping_get z (<[k := v]> m) k' = mapping_get z m k'.
Proof. intros. unfold mapping_get. by rewrite lookup_insert_ne. Qed.

(** ** The calls as decision trees *)

Ltac tx_unfold :=
  unfold bind, require, lift, ret, emit, sender, timestamp, sload_pollCount,
    sstore_pollCount, sload_poll, update_poll, checked_add, checked_mul,
    array_get.

Lemma vote_eq k i env s :
  vote k i env s =
    let p := poll_at s k in
    if negb (exists_poll s k) then Err (Revert "Poll does not exist")
    else if negb (Poll.active p) then Err (Revert "Poll is not active")
    else if negb (block_timestamp env <? Poll.endTime p)
      then Err (Revert "Poll has ended")
    else if mapping_get false (Poll.hasVoted p) (msg_sender env)
      then Err (Revert "Already voted")
    else if negb (i <? len (Poll.options p)) then Err (Revert "Invalid option")
    else match Poll.voteCounts p !! N.to_nat i with
         | None => Err (Panic PANIC_INDEX)
         | Some count =>
             if count + 1 <=? MAX_UINT256
             then Ok (tt, store_poll k (voted_poll (msg_sender env) i count p) s,
                      [VoteCast k (msg_sender env) i])
             else Err (Panic PANIC_OVERFLOW)
         end.
Proof.
  unfold vote, pollExists, pollActive, hasNotVoted, exists_poll. tx_unfold. simpl.
  destruct ((0 <? k) && (k <=? pollCount s)); simpl; [|done].
  destruct (Poll.active (poll_at s k)); simpl; [|done].
  destruct (block_timestamp env <? Poll.endTime (poll_at s k)); simpl; [|done].
  destruct (mapping_get false (Poll.hasVoted (poll_at s k)) (msg_sender env));
    simpl; [done|].
  destruct (i <? len (Poll.options (poll_at s k))); simpl; [|done].
  rewrite !poll_at_store_eq, !store_poll_twice. simpl.
  destruct (Poll.voteCounts (poll_at s k) !! N.to_nat i) as [count|]; simpl; [|done].
  destruct (count + 1 <=? MAX_UINT256); simpl; [|done].
  by rewrite ?poll_at_store_eq, ?store_poll_twice.
Qed.

Lemma endPoll_eq k env s :
  endPoll k env s =
    let p := poll_at s k in
    if negb (exists_poll s k) then Err (Revert "Poll does not exist")
    else if negb (msg_sender env =? Poll.creator p)
      then Err (Revert "Only creator can end poll")
    else if negb (Poll.active p) then Err (Revert "Poll already ended")
    else Ok (tt, store_poll k (Poll.set_active false p) s, [PollEnded k]).
Proof.
  unfold endPoll, pollExists, exists_poll. tx_unfold. simpl.
  destruct ((0 <? k) && (k <=? pollCount s)); simpl; [|done].
  destruct (msg_sender env =? Poll.creator (poll_at s k)); simpl; [|done].
  destruct (Poll.active (poll_at s k)); simpl; done.
Qed.

(** ** Bounds *)

Lemma max_uint256_ge_duration : 10080 * 60 <= MAX_UINT256.
Proof. apply N.leb_le. vm_compute. reflexivity. Qed.

Lemma max_address_lt_uint256 : MAX_ADDRESS + 1 < MAX_UINT256.
Proof. apply N.ltb_lt. vm_compute. reflexivity. Qed.

Lemma checked_add_ok a b : a + b <= MAX_UINT256 -> checked_add a b = Ok (a + b).
Proof. intros H. unfold checked_add. by apply N.leb_le in H as ->. Qed.

Lemma checked_add_overflow a b :
  MAX_UINT256 < a + b -> checked_add a b = Err (Panic PANIC_OVERFLOW).
Proof. intros H. unfold checked_add. by apply N.leb_gt in H as ->. Qed.

Lemma array_get_ok {A} (arr : list A) i x :
  arr !! N.to_nat i = Some x -> array_get arr i = Ok x.
Proof. intros H. unfold array_get. by rewrite H. Qed.

(** ** The loop of [createPoll] *)

Lemma createPoll_push_eq opts k i o env s :
  opts !! N.to_nat i = Some o ->
  createPoll_push opts k i tt env s =
    if nonempty o then Ok (tt, store_poll k (push_option o (poll_at s k)) s, [])
    else Err (Revert "Option cannot be empty").
Proof.
  intros Ho. unfold createPoll_push, nonempty. tx_unfold. rewrite Ho. simpl.
  destruct (0 <? bytes_length o); simpl; [|done].
  by rewrite poll_at_store_eq, store_poll_twice.
Qed.

Lemma createPoll_loop_eq pre rest k p env s :
  len (pre ++ rest) <= MAX_UINT256 ->
  for_loop (length rest) (len pre) (createPoll_push (pre ++ rest) k) tt env
      (store_poll k p s) =
    if forallb nonempty rest
    then Ok (tt, store_poll k (foldl (fun p o => push_option o p) p rest) s, [])
    else Err (Revert "Option cannot be empty").
Proof.
  revert pre p. induction rest as [|o rest IH]; intros pre p Hlen; simpl.
  - reflexivity.
  - unfold bind at 1.
    rewrite (createPoll_push_eq _ _ _ o).
    2:{ unfold len. rewrite Nat2N.id. by rewrite list_lookup_middle. }
    destruct (nonempty o); simpl; [|done].
    rewrite poll_at_store_eq, store_poll_twice.
    unfold bind at 1. unfold lift at 1.
    rewrite checked_add_ok.
    2:{ unfold len in *. rewrite length_app in Hlen. simpl in Hlen. lia. }
    replace (len pre + 1) with (len (pre ++ [o])).
    2:{ unfold len. rewrite length_app. simpl. lia. }
    replace (pre ++ o :: rest) with ((pre ++ [o]) ++ rest).
    2:{ by rewrite <- app_assoc. }
    rewrite IH.
    2:{ by rewrite <- app_assoc. }
    destruct (forallb nonempty rest); simpl; done.
Qed.

Lemma foldl_push_option rest p :
  foldl (fun p o => push_option o p) p rest =
    Poll.mk (Poll.id p) (Poll.question p) (Poll.options p ++ rest)
      (Poll.voteCounts p ++ replicate (length rest) 0)
      (Poll.creator p) (Poll.endTime p) (Poll.active p)
      (Poll.hasVoted p) (Poll.voterChoice p).
Proof.
  revert p. induction rest as [|o rest IH]; intros p; simpl.
  - rewrite !app_nil_r. by destruct p.
  - rewrite IH. unfold push_option; simpl.
    by rewrite <- !app_assoc.
Qed.

Lemma poll_at_store_pollCount c s k : poll_at (store_pollCount c s) k = poll_at s k.
Proof. reflexivity. Qed.

Lemma createPoll_eq q opts d env s :
  createPoll q opts d env s =
    let k := pollCount s + 1 in
    let deadline := block_timestamp env + d * 60 in
    if negb (0 <? bytes_length q) then Err (Revert "Question cannot be empty")
    else if negb (2 <=? len opts) then Err (Revert "Need at least 2 options")
    else if negb (len opts <=? 10) then Err (Revert "Maximum 10 options allowed")
    else if negb (0 <? d) then Err (Revert "Duration must be positive")
    else if negb (d <=? 10080) then Err (Revert "Max duration is 7 days")
    else if negb (k <=? MAX_UINT256) then Err (Panic PANIC_OVERFLOW)
    else if negb (deadline <=? MAX_UINT256) then Err (Panic PANIC_OVERFLOW)
    else if negb (forallb nonempty opts)
      then Err (Revert "Option cannot be empty")
    else Ok (k,
             store_poll k
               (created_poll k q opts (msg_sender env) deadline (poll_at s k))
               (store_pollCount k s),
             [PollCreated k q (msg_sender env) deadline]).
Proof.
  unfold createPoll. tx_unfold. simpl.
  destruct (0 <? bytes_length q); simpl; [|done].
  destruct (2 <=? len opts); simpl; [|done].
  destruct (len opts <=? 10) eqn:Hlen; simpl; [|done].
  destruct (0 <? d); simpl; [|done].
  destruct (d <=? 10080) eqn:Hd; simpl; [|done].
  destruct (pollCount s + 1 <=? MAX_UINT256); simpl; [|done].
  assert ((d * 60 <=? MAX_UINT256) = true) as ->.
  { apply N.leb_le. apply N.leb_le in Hd.
    pose proof max_uint256_ge_duration. lia. }
  simpl.
  destruct (block_timestamp env + d * 60 <=? MAX_UINT256); simpl; [|done].
  rewrite !poll_at_store_eq, !store_poll_twice.
  pose proof (createPoll_loop_eq [] opts (pollCount s + 1)) as Hloop.
  simpl in Hloop. rewrite Hloop; clear Hloop.
  2:{ apply N.leb_le in Hlen. pose proof max_uint256_ge_duration. lia. }
  destruct (forallb nonempty opts); simpl; [|done].
  rewrite poll_at_store_eq, foldl_push_option. simpl.
  reflexivity.
Qed.

(** ** A rule for the loops of the views

    A loop whose body neither writes storage nor logs keeps an invariant [I]
    of the iteration number and the local variables, as long as the counter
    stays a [uint256]. *)
Lemma for_loop_view {A} (I : nat -> A -> Prop) n i (body : N -> A -> Tx A) a env s :
  i + N.of_nat n <= MAX_UINT256 ->
  I 0%nat a ->
  (forall j a, (j < n)%nat -> I j a ->
     exists a', body (i + N.of_nat j) a env s = Ok (a', s, []) /\ I (S j) a') ->
  exists a', for_loop n i body a env s = Ok (a', s, []) /\ I n a'.
Proof.
  revert I i a. induction n as [|n IH]; intros I i a Hmax H0 Hbody.
  - exists a. split; [reflexivity | assumption].
  - destruct (Hbody 0%nat a) as (a1 & Hb & H1); [lia | assumption |].
    rewrite N.add_0_r in Hb.
    destruct (IH (fun j => I (S j)) (i + 1) a1) as (a2 & Hl & H2).
    + lia.
    + assumption.
    + intros j a' Hj Hi. destruct (Hbody (S j) a') as (a3 & Hb3 & H3);
        [lia | assumption |].
      exists a3. split; [|assumption].
      rewrite <- Hb3. f_equal. lia.
    + exists a2. split; [|assumption].
      simpl. unfold bind at 1. rewrite Hb.
      unfold bind at 1. unfold lift at 1. rewrite checked_add_ok by lia.
      rewrite Hl. reflexivity.
Qed.

(** ** Sums of counts *)

Lemma sum_counts_app l1 l2 : sum_counts (l1 ++ l2) = sum_counts l1 + sum_counts l2.
Proof. induction l1 as [|x l1 IH]; simpl; [reflexivity | rewrite IH; lia]. Qed.

Lemma sum_counts_take_le j l : sum_counts (take j l) <= sum_counts l.
Proof.
  rewrite <- (take_drop j l) at 2. rewrite sum_counts_app. lia.
Qed.

Lemma sum_counts_replicate_0 n : sum_counts (replicate n 0) = 0.
Proof. induction n as [|n IH]; simpl; [reflexivity | exact IH]. Qed.

Lemma sum_counts_insert l (i : nat) c c' :
  l !! i = Some c -> sum_counts (<[i := c']> l) + c = sum_counts l + c'.
Proof.
  revert i. induction l as [|x l IH]; intros [|i] H; simpl in *; try done.
  - injection H as ->. lia.
  - specialize (IH _ H). lia.
Qed.

(** ** The loops of [getPoll], [getWinner] and [getActivePolls] *)

Lemma getPoll_loop counts env s :
  len counts <= MAX_UINT256 ->
  sum_counts counts <= MAX_UINT256 ->
  for_loop (length counts) 0 (getPoll_add counts) 0 env s =
    Ok (sum_counts counts, s, []).
Proof.
  intros Hlen Hsum.
  destruct (for_loop_view (fun j t => t = sum_counts (take j counts))
              (length counts) 0 (getPoll_add counts) 0 env s)
    as (t & Hl & Ht).
  - unfold len in Hlen. lia.
  - reflexivity.
  - intros j t Hj ->.
    destruct (lookup_lt_is_Some_2 counts j Hj) as [c Hc].
    exists (sum_counts (take (S j) counts)). split; [|reflexivity].
    pose proof (sum_counts_take_le (S j) counts) as Hle.
    rewrite (take_S_r _ _ _ Hc), sum_counts_app in *. simpl in *.
    rewrite N.add_0_r in *. rewrite N.add_0_l.
    unfold getPoll_add, bind, lift.
    rewrite (array_get_ok _ _ c) by (by rewrite Nat2N.id).
    by rewrite checked_add_ok by lia.
  - rewrite Hl, Ht. by rewrite firstn_all.
Qed.

Lemma getWinner_scan_inv counts j acc env s :
  (j < length counts)%nat ->
  winner_inv counts j acc ->
  exists acc', getWinner_scan counts (0 + N.of_nat j) acc env s = Ok (acc', s, [])
               /\ winner_inv counts (S j) acc'.
Proof.
  intros Hj Hinv. destruct acc as [m w].
  destruct (lookup_lt_is_Some_2 counts j Hj) as [c Hc].
  rewrite N.add_0_l. unfold getWinner_scan, bind, lift.
  rewrite (array_get_ok _ _ c) by (by rewrite Nat2N.id).
  destruct (m <? c) eqn:Hlt.
  - apply N.ltb_lt in Hlt. unfold ret.
    eexists. split; [reflexivity|].
    right. rewrite Nat2N.id. split; [lia|]. split; [assumption|]. split.
    + intros i c' Hi Hc'. destruct (decide (i = j)) as [->|Hne].
      * rewrite Hc in Hc'. injection Hc' as ->. lia.
      * destruct Hinv as [(_ & -> & Hz) | (_ & _ & Hle & _)].
        -- rewrite (Hz i c') by (lia || assumption). lia.
        -- specialize (Hle i c' ltac:(lia) Hc'). lia.
    + intros i c' Hi Hc'.
      destruct Hinv as [(_ & -> & Hz) | (_ & _ & Hle & _)].
      * rewrite (Hz i c') by (lia || assumption). lia.
      * specialize (Hle i c' ltac:(lia) Hc'). lia.
  - apply N.ltb_ge in Hlt.
    eexists. split; [reflexivity|].
    destruct Hinv as [(-> & -> & Hz) | (Hw & Hm & Hle & Hlt')].
    + left. split; [reflexivity|]. split; [reflexivity|].
      intros i c' Hi Hc'. destruct (decide (i = j)) as [->|Hne].
      * rewrite Hc in Hc'. injection Hc' as ->. lia.
      * apply (Hz i); [lia | assumption].
    + right. split; [lia|]. split; [assumption|]. split; [|assumption].
      intros i c' Hi Hc'. destruct (decide (i = j)) as [->|Hne].
      * rewrite Hc in Hc'. injection Hc' as ->. lia.
      * apply (Hle i); [lia | assumption].
Qed.

Lemma getWinner_loop counts env s :
  (0 < length counts)%nat ->
  len counts <= MAX_UINT256 ->
  exists m w, for_loop (length counts) 0 (getWinner_scan counts) (0, 0) env s =
                Ok ((m, w), s, [])
              /\ leftmost_max counts w m.
Proof.
  intros Hpos Hlen.
  destruct (for_loop_view (winner_inv counts) (length counts) 0
              (getWinner_scan counts) (0, 0) env s) as ([m w] & Hl & Hinv).
  - unfold len in Hlen. lia.
  - left. split; [reflexivity|]. split; [reflexivity|]. intros; lia.
  - intros j acc Hj Hi. by apply getWinner_scan_inv.
  - exists m, w. split; [assumption|].
    destruct Hinv as [(-> & -> & Hz) | (Hw & Hm & Hle & Hlt)].
    + destruct (lookup_lt_is_Some_2 counts 0%nat Hpos) as [c Hc].
      pose proof (Hz 0%nat c Hpos Hc) as ->.
      split; [assumption|]. split.
      * intros j c Hj. rewrite (Hz j c); [lia | | assumption].
        by apply lookup_lt_Some in Hj.
      * intros j c Hj. simpl in Hj. lia.
    + split; [assumption|]. split; [|assumption].
      intros j c Hj. apply (Hle j); [|assumption].
      by apply lookup_lt_Some in Hj.
Qed.

Lemma active_now_eq k env s : active_now k env s = Ok (open_at env s k, s, []).
Proof. reflexivity. Qed.

Lemma open_ids_length env s n : (length (open_ids env s n) <= n)%nat.
Proof.
  induction n as [|n IH]; [simpl; lia|].
  cbn [open_ids]. rewrite length_app.
  destruct (open_at env s (N.of_nat (S n))); simpl; lia.
Qed.

Lemma open_ids_length_mono env s j n :
  (j <= n)%nat -> (length (open_ids env s j) <= length (open_ids env s n))%nat.
Proof.
  induction 1 as [|n Hle IH]; [lia|].
  cbn [open_ids]. rewrite length_app. lia.
Qed.

Lemma open_ids_elem env s n k :
  k ∈ open_ids env s n <->
  1 <= k /\ k <= N.of_nat n /\ open_at env s k = true.
Proof.
  induction n as [|n IH].
  - simpl. split; [by intros ?%elem_of_nil | lia].
  - cbn [open_ids]. rewrite elem_of_app, IH.
    destruct (open_at env s (N.of_nat (S n))) eqn:Hopen.
    + rewrite list_elem_of_singleton. split.
      * intros [(? & ? & ?) | ->]; [split; [|split]; auto; lia|].
        split; [lia|]. split; [lia | assumption].
      * intros (? & ? & ?).
        destruct (decide (k = N.of_nat (S n))) as [->|Hne]; [by right|].
        left. split; [|split]; auto; lia.
    + split.
      * intros [(? & ? & ?) | ?%elem_of_nil]; [|done].
        split; [|split]; auto; lia.
      * intros (? & ? & Hk). left. split; [|split]; auto.
        destruct (decide (k = N.of_nat (S n))) as [->|Hne]; [congruence | lia].
Qed.

Lemma open_ids_ascending env s n i j a b :
  (i < j)%nat ->
  open_ids env s n !! i = Some a -> open_ids env s n !! j = Some b -> a < b.
Proof.
  revert i j a b. induction n as [|n IH]; intros i j a b Hij Ha Hb.
  - simpl in Ha. by rewrite lookup_nil in Ha.
  - cbn [open_ids] in Ha, Hb.
    apply lookup_app_Some in Hb as [Hb | [Hge Hb]].
    + rewrite lookup_app_l in Ha by (apply lookup_lt_Some in Hb; lia).
      by apply (IH i j).
    + destruct (open_at env s (N.of_nat (S n))).
      * apply list_lookup_singleton_Some in Hb as [Hj <-].
        rewrite lookup_app_l in Ha by lia.
        assert (a ∈ open_ids env s n) as Hin
          by (by eapply list_elem_of_lookup_2).
        apply open_ids_elem in Hin. lia.
      * by rewrite lookup_nil in Hb.
Qed.

Lemma getActivePolls_count_loop env s n :
  1 + N.of_nat n <= MAX_UINT256 ->
  for_loop n 1 getActivePolls_count 0 env s = Ok (len (open_ids env s n), s, []).
Proof.
  intros Hmax.
  destruct (for_loop_view (fun j c => c = len (open_ids env s j)) n 1
              getActivePolls_count 0 env s) as (c & Hl & ->);
    [assumption | reflexivity | | assumption].
  intros j c Hj ->. eexists. split; [|reflexivity].
  unfold getActivePolls_count, bind. rewrite active_now_eq.
  replace (1 + N.of_nat j) with (N.of_nat (S j)) by lia.
  pose proof (open_ids_length env s j).
  cbn [open_ids]. unfold len. rewrite length_app.
  destruct (open_at env s (N.of_nat (S j))); simpl length.
  - unfold lift. rewrite checked_add_ok by lia. simpl. do 3 f_equal. lia.
  - unfold ret. simpl. do 3 f_equal. lia.
Qed.

Lemma getActivePolls_collect_loop env s n :
  1 + N.of_nat n <= MAX_UINT256 ->
  for_loop n 1 getActivePolls_collect
      (replicate (length (open_ids env s n)) 0, 0) env s =
    Ok ((open_ids env s n, len (open_ids env s n)), s, []).
Proof.
  intros Hmax.
  set (T := length (open_ids env s n)).
  destruct (for_loop_view
              (fun j acc =>
                 acc = (open_ids env s j ++
                          replicate (T - length (open_ids env s j)) 0,
                        len (open_ids env s j)))
              n 1 getActivePolls_collect (replicate T 0, 0) env s)
    as (acc & Hl & ->); [assumption | | |].
  - simpl. by rewrite Nat.sub_0_r.
  - intros j acc Hj ->. eexists. split; [|reflexivity].
    unfold getActivePolls_collect, bind. rewrite active_now_eq.
    replace (1 + N.of_nat j) with (N.of_nat (S j)) by lia.
    pose proof (open_ids_length env s j) as Hlen.
    pose proof (open_ids_length_mono env s (S j) n ltac:(lia)) as Hmono.
    fold T in Hmono. cbn [open_ids] in *. rewrite length_app in Hmono.
    unfold len. rewrite length_app.
    destruct (open_at env s (N.of_nat (S j))); simpl length in *.
    + unfold lift, array_set.
      rewrite length_app, length_replicate.
      assert ((N.of_nat (length (open_ids env s j)) <?
               N.of_nat (length (open_ids env s j)
                         + (T - length (open_ids env s j)))) = true) as ->
        by (apply N.ltb_lt; lia).
      rewrite checked_add_ok by lia. simpl.
      rewrite Nat2N.id.
      rewrite insert_app_r_alt by lia. rewrite Nat.sub_diag.
      destruct (T - length (open_ids env s j))%nat as [|r] eqn:Hr; [lia|].
      simpl.
      replace (T - (length (open_ids env s j) + 1))%nat with r by lia.
      rewrite <- app_assoc. simpl. do 4 f_equal. lia.
    + unfold ret. rewrite !Nat.add_0_r, !app_nil_r. reflexivity.
  - rewrite Hl. subst T. rewrite Nat.sub_diag. simpl. by rewrite app_nil_r.
Qed.

Lemma getActivePolls_eq env s :
  pollCount s < MAX_UINT256 ->
  getActivePolls env s = Ok (open_ids env s (N.to_nat (pollCount s)), s, []).
Proof.
  intros Hmax. unfold getActivePolls, bind at 1, sload_pollCount.
  unfold bind at 1. rewrite getActivePolls_count_loop by lia.
  unfold len. rewrite Nat2N.id.
  unfold bind at 1. rewrite getActivePolls_collect_loop by lia.
  reflexivity.
Qed.

(** ** Successful calls, inverted *)

Ltac pass_guard H :=
  match type of H with
  | (if negb ?b then _ else _) = _ =>
      let E := fresh "Hguard" in
      destruct b eqn:E; simpl negb in H; cbv iota in H; [|discriminate H]
  | (if ?b then _ else _) = _ =>
      let E := fresh "Hguard" in
      destruct b eqn:E; [discriminate H|]
  end.

Lemma vote_Ok_inv k i env s s' ev :
  vote k i env s = Ok (tt, s', ev) ->
  let p := poll_at s k in
  exists_poll s k = true /\
  Poll.active p = true /\
  block_timestamp env < Poll.endTime p /\
  mapping_get false (Poll.hasVoted p) (msg_sender env) = false /\
  i < len (Poll.options p) /\
  exists count,
    Poll.voteCounts p !! N.to_nat i = Some count /\
    count + 1 <= MAX_UINT256 /\
    s' = store_poll k (voted_poll (msg_sender env) i count p) s /\
    ev = [VoteCast k (msg_sender env) i].
Proof.
  rewrite vote_eq. cbv zeta. intros H.
  do 3 pass_guard H. pass_guard H. pass_guard H.
  destruct (Poll.voteCounts (poll_at s k) !! N.to_nat i) as [count|] eqn:Hc;
    [|discriminate H].
  destruct (count + 1 <=? MAX_UINT256) eqn:Hov; [|discriminate H].
  injection H as <- <-.
  apply N.ltb_lt in Hguard1, Hguard3. apply N.leb_le in Hov.
  repeat split; try assumption. exists count. repeat split; assumption.
Qed.

Lemma endPoll_Ok_inv k env s s' ev :
  endPoll k env s = Ok (tt, s', ev) ->
  let p := poll_at s k in
  exists_poll s k = true /\
  msg_sender env = Poll.creator p /\
  Poll.active p = true /\
  s' = store_poll k (Poll.set_active false p) s /\
  ev = [PollEnded k].
Proof.
  rewrite endPoll_eq. cbv zeta. intros H.
  do 3 pass_guard H. injection H as <- <-.
  apply N.eqb_eq in Hguard0. repeat split; assumption.
Qed.

Lemma createPoll_Ok_inv q opts d env s k s' ev :
  createPoll q opts d env s = Ok (k, s', ev) ->
  let deadline := block_timestamp env + d * 60 in
  0 < bytes_length q /\
  2 <= len opts /\ len opts <= 10 /\
  0 < d /\ d <= 10080 /\
  forallb nonempty opts = true /\
  k = pollCount s + 1 /\ k <= MAX_UINT256 /\ deadline <= MAX_UINT256 /\
  s' = store_poll k
         (created_poll k q opts (msg_sender env) deadline (poll_at s k))
         (store_pollCount k s) /\
  ev = [PollCreated k q (msg_sender env) deadline].
Proof.
  rewrite createPoll_eq. cbv zeta. intros H.
  do 8 pass_guard H. injection H as <- <- <-.
  apply N.ltb_lt in Hguard, Hguard2.
  apply N.leb_le in Hguard0, Hguard1, Hguard3, Hguard4, Hguard5.
  repeat split; assumption.
Qed.

(** ** Voters *)

Lemma elem_of_voters p a :
  a ∈ voters p <-> mapping_get false (Poll.hasVoted p) a = true.
Proof.
  unfold voters. rewrite elem_of_filter, elem_of_dom. split; [tauto|].
  intros H. split; [assumption|].
  unfold mapping_get in H. destruct (Poll.hasVoted p !! a); [eauto | discriminate].
Qed.

Lemma voters_voted who i count p :
  voters (voted_poll who i count p) = {[who]} ∪ voters p.
Proof.
  apply set_eq. intros a.
  rewrite elem_of_union, elem_of_singleton, !elem_of_voters. simpl.
  destruct (decide (a = who)) as [->|Hne].
  - rewrite mapping_get_insert_eq. tauto.
  - rewrite mapping_get_insert_ne by congruence. tauto.
Qed.

Lemma size_voters_voted who i count p :
  mapping_get false (Poll.hasVoted p) who = false ->
  size (voters (voted_poll who i count p)) = S (size (voters p)).
Proof.
  intros Hnew. rewrite voters_voted, size_union.
  - by rewrite size_singleton.
  - apply disjoint_singleton_l. rewrite elem_of_voters. congruence.
Qed.

(** At most [n] numbers lie below [n]. *)
Lemma size_below (X : gset N) n :
  (forall x, x ∈ X -> x < n) -> N.of_nat (size X) <= n.
Proof.
  revert X. induction n as [|n IH] using N.peano_ind; intros X HX.
  - assert (X = ∅) as ->.
    { apply set_eq. intros x. split; [|by intros ?%not_elem_of_empty].
      intros Hx. specialize (HX x Hx). lia. }
    by rewrite size_empty.
  - assert (size X <= size (X ∖ {[n]}) + 1)%nat as Hsz.
    { transitivity (size ((X ∖ {[n]}) ∪ {[n]})).
      - apply subseteq_size. intros x Hx.
        destruct (decide (x = n)) as [->|Hne]; set_solver.
      - rewrite size_union; [by rewrite size_singleton|].
        apply disjoint_singleton_r. intros [_ Hn]%elem_of_difference.
        apply Hn. by apply elem_of_singleton. }
    assert (N.of_nat (size (X ∖ {[n]})) <= n) as Hrec.
    { apply IH. intros x Hx.
      apply elem_of_difference in Hx as [Hx Hn].
      rewrite elem_of_singleton in Hn. specialize (HX x Hx). lia. }
    lia.
Qed.

Lemma exists_poll_iff s k : exists_poll s k = true <-> 1 <= k /\ k <= pollCount s.
Proof.
  unfold exists_poll. rewrite andb_true_iff, N.ltb_lt, N.leb_le. lia.
Qed.

Lemma exists_poll_false s k :
  exists_poll s k = false <-> k = 0 \/ pollCount s < k.
Proof.
  unfold exists_poll. rewrite andb_false_iff, N.ltb_ge, N.leb_gt. lia.
Qed.

Lemma poll_at_present s k p : polls s !! k = Some p -> poll_at s k = p.
Proof. intros H. unfold poll_at, mapping_get. by rewrite H. Qed.

Lemma poll_at_absent s k : polls s !! k = None -> poll_at s k = Poll.zero.
Proof. intros H. unfold poll_at, mapping_get. by rewrite H. Qed.

Lemma ledger_ok_poll s k :
  ledger_ok s -> exists_poll s k = true -> poll_ok k (poll_at s k).
Proof.
  intros Hs Hk. destruct (ok_present s Hs k Hk) as (p & Hp & Hok).
  by rewrite (poll_at_present _ _ _ Hp).
Qed.

Lemma ledger_ok_genesis : ledger_ok genesis.
Proof.
  split.
  - simpl. pose proof max_uint256_ge_duration. lia.
  - intros k Hk. apply exists_poll_iff in Hk. simpl in Hk. lia.
  - intros k _. apply lookup_empty.
Qed.

Lemma voters_created k q opts who deadline :
  voters (created_poll k q opts who deadline Poll.zero) = ∅.
Proof.
  apply set_eq. intros a. rewrite elem_of_voters. simpl.
  unfold mapping_get. rewrite lookup_empty. simpl.
  split; [discriminate | by intros ?%not_elem_of_empty].
Qed.

Lemma poll_ok_created k q opts who deadline :
  2 <= len opts -> len opts <= 10 -> forallb nonempty opts = true ->
  poll_ok k (created_poll k q opts who deadline Poll.zero).
Proof.
  intros Hlo Hhi Hne. unfold len in *.
  split; simpl.
  - reflexivity.
  - by rewrite length_replicate.
  - lia.
  - assumption.
  - rewrite sum_counts_replicate_0.
    change (0 = N.of_nat (size (voters (created_poll k q opts who deadline Poll.zero)))).
    by rewrite voters_created, size_empty.
  - intros a Ha.
    change (a ∈ voters (created_poll k q opts who deadline Poll.zero)) in Ha.
    rewrite voters_created in Ha. by apply not_elem_of_empty in Ha.
  - intros a Ha.
    change (a ∈ voters (created_poll k q opts who deadline Poll.zero)) in Ha.
    rewrite voters_created in Ha. by apply not_elem_of_empty in Ha.
Qed.

Lemma poll_ok_voted k who i count p :
  who <= MAX_ADDRESS ->
  mapping_get false (Poll.hasVoted p) who = false ->
  i < len (Poll.options p) ->
  Poll.voteCounts p !! N.to_nat i = Some count ->
  poll_ok k p -> poll_ok k (voted_poll who i count p).
Proof.
  intros Hwho Hnew Hi Hc [Hid Hlen Hopts Hne Hsum Hvot Hch].
  split; simpl; try assumption.
  - by rewrite length_insert.
  - rewrite size_voters_voted by assumption.
    pose proof (sum_counts_insert _ _ _ (count + 1) Hc). lia.
  - intros a. rewrite voters_voted, elem_of_union, elem_of_singleton.
    intros [-> | Ha]; [assumption | by apply Hvot].
  - intros a. rewrite voters_voted, elem_of_union, elem_of_singleton.
    destruct (decide (a = who)) as [->|Hneq].
    + intros _. by rewrite mapping_get_insert_eq.
    + intros [-> | Ha]; [done|].
      rewrite mapping_get_insert_ne by congruence. by apply Hch.
Qed.

Lemma poll_ok_ended k p : poll_ok k p -> poll_ok k (Poll.set_active false p).
Proof. intros [? ? ? ? ? ? ?]. split; assumption. Qed.

(** Replacing an existing poll by one that satisfies the invariant. *)
Lemma ledger_ok_store s k p :
  ledger_ok s -> exists_poll s k = true -> poll_ok k p ->
  ledger_ok (store_poll k p s).
Proof.
  intros [Hc Hpre Habs] Hk Hp. split; simpl.
  - assumption.
  - intros j Hj. change (exists_poll s j = true) in Hj.
    destruct (decide (k = j)) as [<-|Hne].
    + rewrite lookup_insert_eq. eauto.
    + rewrite lookup_insert_ne by assumption. by apply Hpre.
  - intros j Hj. change (exists_poll s j = false) in Hj.
    rewrite lookup_insert_ne by congruence. by apply Habs.
Qed.

Lemma ledger_ok_createPoll q opts d env s k s' ev :
  ledger_ok s -> createPoll q opts d env s = Ok (k, s', ev) -> ledger_ok s'.
Proof.
  intros [Hc Hpre Habs] H.
  apply createPoll_Ok_inv in H
    as (_ & Hlo & Hhi & _ & _ & Hne & Hk & Hmax & _ & -> & _).
  assert (poll_at s k = Poll.zero) as ->.
  { apply poll_at_absent, Habs, exists_poll_false. lia. }
  split; simpl.
  - assumption.
  - intros j Hj. apply exists_poll_iff in Hj. simpl in Hj.
    destruct (decide (k = j)) as [<-|Hneq].
    + rewrite lookup_insert_eq. eexists. split; [reflexivity|].
      by apply poll_ok_created.
    + rewrite lookup_insert_ne by assumption.
      apply Hpre, exists_poll_iff. lia.
  - intros j Hj. apply exists_poll_false in Hj. simpl in Hj.
    rewrite lookup_insert_ne by lia.
    apply Habs, exists_poll_false. lia.
Qed.

Lemma ledger_ok_vote k i env s s' ev :
  wf_env env -> ledger_ok s -> vote k i env s = Ok (tt, s', ev) -> ledger_ok s'.
Proof.
  intros [Hwho _] Hs H.
  apply vote_Ok_inv in H
    as (Hk & _ & _ & Hnew & Hi & count & Hcount & _ & -> & _).
  apply ledger_ok_store; [assumption | assumption |].
  apply poll_ok_voted; try assumption. by apply ledger_ok_poll.
Qed.

Lemma ledger_ok_endPoll k env s s' ev :
  ledger_ok s -> endPoll k env s = Ok (tt, s', ev) -> ledger_ok s'.
Proof.
  intros Hs H. apply endPoll_Ok_inv in H as (Hk & _ & _ & -> & _).
  apply ledger_ok_store; [assumption | assumption |].
  by apply poll_ok_ended, ledger_ok_poll.
Qed.

Lemma step_ok s s' : ledger_ok s -> step s s' -> ledger_ok s'.
Proof.
  intros Hs [env q opts d k s1 ev Henv H | env k i s1 ev Henv H
            | env k s1 ev Henv H].
  - by eapply ledger_ok_createPoll.
  - by eapply ledger_ok_vote.
  - by eapply ledger_ok_endPoll.
Qed.

Lemma reachable_ok s : reachable s -> ledger_ok s.
Proof.
  induction 1 as [|s s' _ IH Hstep]; [exact ledger_ok_genesis|].
  by eapply step_ok.
Qed.

(** In a reachable storage the counts of a poll sum to at most the number of
    addresses, so neither [vote] nor [getPoll] can overflow. *)
Lemma poll_ok_sum_bound k p :
  poll_ok k p -> sum_counts (Poll.voteCounts p) <= MAX_ADDRESS + 1.
Proof.
  intros Hp. rewrite (ok_sum k p Hp). apply size_below.
  intros a Ha. apply (ok_voters k p Hp) in Ha. lia.
Qed.

Lemma sum_counts_lookup_le l (i : nat) c :
  l !! i = Some c -> c <= sum_counts l.
Proof.
  revert i. induction l as [|x l IH]; intros [|i] H; simpl in *; try done.
  - injection H as ->. lia.
  - specialize (IH _ H). lia.
Qed.

(** [vote] goes through on every reachable storage once its four
    [require]s hold: the bounds and overflow checks behind them cannot
    fail. *)
Lemma vote_succeeds k i env s :
  reachable s -> wf_env env ->
  exists_poll s k = true ->
  Poll.active (poll_at s k) = true ->
  block_timestamp env < Poll.endTime (poll_at s k) ->
  mapping_get false (Poll.hasVoted (poll_at s k)) (msg_sender env) = false ->
  i < len (Poll.options (poll_at s k)) ->
  exists count,
    Poll.voteCounts (poll_at s k) !! N.to_nat i = Some count /\
    vote k i env s =
      Ok (tt, store_poll k (voted_poll (msg_sender env) i count (poll_at s k)) s,
          [VoteCast k (msg_sender env) i]).
Proof.
  intros Hs Henv Hk Hact Hts Hnew Hi.
  pose proof (ledger_ok_poll s k (reachable_ok s Hs) Hk) as Hp.
  destruct (lookup_lt_is_Some_2 (Poll.voteCounts (poll_at s k)) (N.to_nat i))
    as [count Hc].
  { rewrite <- (ok_lengths _ _ Hp). unfold len in Hi. lia. }
  exists count. split; [assumption|].
  rewrite vote_eq. cbv zeta. rewrite Hk, Hact, Hnew, Hc. simpl.
  apply N.ltb_lt in Hts as ->. apply N.ltb_lt in Hi as ->. simpl.
  pose proof (sum_counts_lookup_le _ _ _ Hc).
  pose proof (poll_ok_sum_bound _ _ Hp).
  pose proof max_address_lt_uint256.
  assert ((count + 1 <=? MAX_UINT256) = true) as -> by (apply N.leb_le; lia).
  reflexivity.
Qed.

Lemma reachable_run_call env c s :
  wf_env env -> reachable s -> reachable (run_call env c s).
Proof.
  intros Henv Hs. destruct c as [q opts d | k i | k]; unfold run_call, exec.
  - destruct (createPoll q opts d env s) as [[[k s'] ev]|e] eqn:H;
      [|assumption].
    eapply reachable_step; [eassumption|]. by eapply step_createPoll.
  - destruct (vote k i env s) as [[[[] s'] ev]|e] eqn:H; [|assumption].
    eapply reachable_step; [eassumption|]. by eapply step_vote.
  - destruct (endPoll k env s) as [[[[] s'] ev]|e] eqn:H; [|assumption].
    eapply reachable_step; [eassumption|]. by eapply step_endPoll.
Qed.

Lemma reachable_run_calls calls s :
  Forall (fun ec => wf_env (fst ec)) calls ->
  reachable s -> reachable (run_calls calls s).
Proof.
  revert s. induction calls as [|[env c] calls IH]; intros s Hwf Hs.
  - exact Hs.
  - inversion Hwf as [|? ? Henv Hrest]; subst. simpl.
    apply IH; [assumption|]. by apply reachable_run_call.
Qed.

Lemma wf_env_small a t : a <= 1000000 -> t <= 1000000 -> wf_env (mkEnv a t).
Proof.
  intros Ha Ht. pose proof max_address_lt_uint256.
  assert (1000000 <= MAX_ADDRESS) by (apply N.leb_le; vm_compute; reflexivity).
  split; simpl; lia.
Qed.

Ltac solve_reachable :=
  apply reachable_run_calls; [|first [assumption | apply reachable_genesis]];
  repeat (apply Forall_cons; split; [apply wf_env_small; simpl; lia|]);
  apply Forall_nil; exact I.

Lemma demo_created_reachable : reachable demo_created.
Proof. unfold demo_created. solve_reachable. Qed.

Lemma demo_voted2_reachable : reachable demo_voted2.
Proof. pose proof demo_created_reachable. unfold demo_voted2. solve_reachable. Qed.

Lemma demo_voted3_reachable : reachable demo_voted3.
Proof. pose proof demo_voted2_reachable. unfold demo_voted3. solve_reachable. Qed.

Lemma demo_ended_reachable : reachable demo_ended.
Proof. pose proof demo_voted3_reachable. unfold demo_ended. solve_reachable. Qed.

Lemma demo_tie_reachable : reachable demo_tie.
Proof. unfold demo_tie. solve_reachable. Qed.

Lemma demo_three_reachable : reachable demo_three.
Proof. unfold demo_three. solve_reachable. Qed.

(** ** The readers of the vote records *)

Lemma hasVoted_eq k v env s :
  hasVoted k v env s =
    if negb (exists_poll s k) then Err (Revert "Poll does not exist")
    else Ok (mapping_get false (Poll.hasVoted (poll_at s k)) v, s, []).
Proof.
  unfold hasVoted, pollExists, exists_poll. tx_unfold. simpl.
  destruct ((0 <? k) && (k <=? pollCount s)); simpl; done.
Qed.

Lemma getVoterChoice_eq k v env s :
  getVoterChoice k v env s =
    if negb (exists_poll s k) then Err (Revert "Poll does not exist")
    else if negb (mapping_get false (Poll.hasVoted (poll_at s k)) v)
      then Err (Revert "Address has not voted")
    else Ok (mapping_get 0 (Poll.voterChoice (poll_at s k)) v, s, []).
Proof.
  unfold getVoterChoice, pollExists, exists_poll. tx_unfold. simpl.
  destruct ((0 <? k) && (k <=? pollCount s)); simpl; [|done].
  destruct (mapping_get false (Poll.hasVoted (poll_at s k)) v); simpl; done.
Qed.

(** ** The scenario of the tests

    Three voters choose the options 0, 0 and 1 of the poll of account 100. *)
Example demo_poll :
  fst (exec (getPoll 1) (mkEnv 9 1004) demo_voted3) =
    Ok (mkPollInfo 1 "best language?" demo_options [2; 1; 0; 0] 100 4600 true 3) /\
  fst (exec (getWinner 1) (mkEnv 9 1004) demo_voted3) = Ok (0, "JS", 2) /\
  fst (exec (vote 1 1) (mkEnv 1 1004) demo_voted3) = Err (Revert "Already voted") /\
  fst (exec (vote 1 0) (mkEnv 4 4600) demo_voted3) = Err (Revert "Poll has ended") /\
  fst (exec (vote 1 0) (mkEnv 4 1600) demo_ended) = Err (Revert "Poll is not active").
Proof. repeat split; vm_compute; reflexivity. Qed.

(** ** Casting a vote *)

(** C1. A successful [vote(k, i)] by [msg.sender] adds exactly 1 to
    [voteCounts[i]] of poll [k] and leaves every other entry (and the length)
    of [voteCounts] as it was; afterwards [hasVoted(k, sender)] is [true] and
    [getVoterChoice(k, sender)] returns [i], at whatever time and by
    whomever they are asked. *)
Theorem vote_effect k i env s s' ev :
  vote k i env s = Ok (tt, s', ev) ->
  (exists count,
     Poll.voteCounts (poll_at s k) !! N.to_nat i = Some count /\
     Poll.voteCounts (poll_at s' k) !! N.to_nat i = Some (count + 1)) /\
  (forall j, j <> N.to_nat i ->
     Poll.voteCounts (poll_at s' k) !! j = Poll.voteCounts (poll_at s k) !! j) /\
  length (Poll.voteCounts (poll_at s' k)) = length (Poll.voteCounts (poll_at s k)) /\
  (forall env', hasVoted k (msg_sender env) env' s' = Ok (true, s', [])) /\
  (forall env', getVoterChoice k (msg_sender env) env' s' = Ok (i, s', [])).
Proof.
  intros H.
  apply vote_Ok_inv in H as (Hk & _ & _ & _ & Hi & count & Hc & _ & -> & _).
  rewrite poll_at_store_eq. simpl.
  assert (exists_poll (store_poll k
            (voted_poll (msg_sender env) i count (poll_at s k)) s) k = true)
    as Hk' by exact Hk.
  split; [|split; [|split; [|split]]].
  - exists count. split; [assumption|].
    apply list_lookup_insert_eq. by apply lookup_lt_Some in Hc.
  - intros j Hj. by apply list_lookup_insert_ne.
  - apply length_insert.
  - intros env'. rewrite hasVoted_eq, Hk', poll_at_store_eq. simpl.
    by rewrite mapping_get_insert_eq.
  - intros env'. rewrite getVoterChoice_eq, Hk', poll_at_store_eq. simpl.
    by rewrite !mapping_get_insert_eq.
Qed.

Lemma vote_effect_witness :
  vote 1 1 (mkEnv 3 1003) demo_voted2 =
    Ok (tt, demo_voted3, [VoteCast 1 3 1]) /\
  Poll.voteCounts (poll_at demo_voted2 1) = [2; 0; 0; 0] /\
  Poll.voteCounts (poll_at demo_voted3 1) = [2; 1; 0; 0] /\
  getVoterChoice 1 3 alice demo_voted3 = Ok (1, demo_voted3, []).
Proof.
  assert (vote 1 1 (mkEnv 3 1003) demo_voted2 =
            Ok (tt, demo_voted3, [VoteCast 1 3 1])) as H
    by (vm_compute; reflexivity).
  split; [exact H|].
  split; [vm_compute; reflexivity|].
  split; [vm_compute; reflexivity|].
  destruct (vote_effect 1 1 (mkEnv 3 1003) demo_voted2 demo_voted3 _ H)
    as (_ & _ & _ & _ & Hchoice).
  exact (Hchoice alice).
Defined.

(** C2. [vote(k, i)] checks its preconditions in a fixed order, and the
    first one that fails decides the error, whatever holds of the later
    ones: an id outside [1 .. pollCount] is a NotFoundError; then a cleared
    [active] flag or a timestamp at or past [endTime] (the flag may still be
    set) is a NotActiveError; then a sender with a vote record is a
    DuplicateVoteError; then an index at or past [options.length] is an
    InvalidOptionError.  The four kinds differ and the storage is the one
    before the call. *)
Theorem vote_rejects k i env s :
  let p := poll_at s k in
  (exists_poll s k = false ->
     exec (vote k i) env s = (Err (Revert "Poll does not exist"), s) /\
     error_kind (Revert "Poll does not exist") = Some NotFoundError) /\
  (exists_poll s k = true ->
   Poll.active p = false \/ Poll.endTime p <= block_timestamp env ->
     exists e, exec (vote k i) env s = (Err e, s) /\
               error_kind e = Some NotActiveError) /\
  (exists_poll s k = true ->
   Poll.active p = true -> block_timestamp env < Poll.endTime p ->
   mapping_get false (Poll.hasVoted p) (msg_sender env) = true ->
     exec (vote k i) env s = (Err (Revert "Already voted"), s) /\
     error_kind (Revert "Already voted") = Some DuplicateVoteError) /\
  (exists_poll s k = true ->
   Poll.active p = true -> block_timestamp env < Poll.endTime p ->
   mapping_get false (Poll.hasVoted p) (msg_sender env) = false ->
   len (Poll.options p) <= i ->
     exec (vote k i) env s = (Err (Revert "Invalid option"), s) /\
     error_kind (Revert "Invalid option") = Some InvalidOptionError).
Proof.
  cbv zeta. unfold exec. rewrite vote_eq. cbv zeta.
  split; [|split; [|split]].
  - intros ->. simpl. split; reflexivity.
  - intros -> [Hact | Hend]; simpl.
    + rewrite Hact. simpl. eexists. split; reflexivity.
    + apply N.ltb_ge in Hend. rewrite Hend. simpl.
      destruct (Poll.active (poll_at s k)); simpl; eexists; split; reflexivity.
  - intros -> -> Hts ->. apply N.ltb_lt in Hts as ->. simpl.
    split; reflexivity.
  - intros -> -> Hts -> Hi. apply N.ltb_lt in Hts as ->.
    apply N.ltb_ge in Hi as ->. simpl. split; reflexivity.
Qed.

Lemma vote_rejects_witness :
  exec (vote 2 0) (mkEnv 4 1004) demo_voted3 =
    (Err (Revert "Poll does not exist"), demo_voted3) /\
  (exists e, exec (vote 1 0) (mkEnv 4 4600) demo_voted3 = (Err e, demo_voted3) /\
             error_kind e = Some NotActiveError) /\
  exec (vote 1 1) (mkEnv 3 1004) demo_voted3 =
    (Err (Revert "Already voted"), demo_voted3) /\
  exec (vote 1 4) (mkEnv 4 1004) demo_voted3 =
    (Err (Revert "Invalid option"), demo_voted3).
Proof.
  split; [|split; [|split]].
  - apply (vote_rejects 2 0 (mkEnv 4 1004) demo_voted3). vm_compute. reflexivity.
  - apply (vote_rejects 1 0 (mkEnv 4 4600) demo_voted3).
    + vm_compute. reflexivity.
    + right. vm_compute. discriminate.
  - apply (vote_rejects 1 1 (mkEnv 3 1004) demo_voted3);
      vm_compute; reflexivity.
  - apply (vote_rejects 1 4 (mkEnv 4 1004) demo_voted3);
      vm_compute; solve [reflexivity | discriminate].
Defined.

(** C10. A successful [vote(k, i)] leaves [pollCount] and every other poll as
    they were; in poll [k] it leaves [id], [question], [options], [creator],
    [endTime] and [active], the vote records of every other identity and
    every other entry of [voteCounts] as they were. *)
Theorem vote_frame k i env s s' ev :
  vote k i env s = Ok (tt, s', ev) ->
  let p := poll_at s k in
  let p' := poll_at s' k in
  pollCount s' = pollCount s /\
  (forall j, j <> k -> polls s' !! j = polls s !! j) /\
  Poll.id p' = Poll.id p /\
  Poll.question p' = Poll.question p /\
  Poll.options p' = Poll.options p /\
  Poll.creator p' = Poll.creator p /\
  Poll.endTime p' = Poll.endTime p /\
  Poll.active p' = Poll.active p /\
  (forall a, a <> msg_sender env ->
     Poll.hasVoted p' !! a = Poll.hasVoted p !! a /\
     Poll.voterChoice p' !! a = Poll.voterChoice p !! a) /\
  (forall j, j <> N.to_nat i ->
     Poll.voteCounts p' !! j = Poll.voteCounts p !! j) /\
  length (Poll.voteCounts p') = length (Poll.voteCounts p).
Proof.
  intros H. cbv zeta.
  apply vote_Ok_inv in H as (_ & _ & _ & _ & _ & count & _ & _ & -> & _).
  rewrite poll_at_store_eq. simpl.
  repeat split; try reflexivity.
  - intros j Hj. by apply lookup_insert_ne.
  - by apply lookup_insert_ne.
  - by apply lookup_insert_ne.
  - intros j Hj. by apply list_lookup_insert_ne.
  - apply length_insert.
Qed.

Lemma vote_frame_witness :
  vote 1 1 (mkEnv 3 1003) demo_voted2 =
    Ok (tt, demo_voted3, [VoteCast 1 3 1]) /\
  pollCount demo_voted3 = pollCount demo_voted2 /\
  Poll.options (poll_at demo_voted3 1) = Poll.options (poll_at demo_voted2 1).
Proof.
  assert (vote 1 1 (mkEnv 3 1003) demo_voted2 =
            Ok (tt, demo_voted3, [VoteCast 1 3 1])) as H
    by (vm_compute; reflexivity).
  split; [exact H|].
  destruct (vote_frame 1 1 (mkEnv 3 1003) demo_voted2 demo_voted3 _ H)
    as (Hcount & _ & _ & _ & Hopts & _).
  split; [exact Hcount | exact Hopts].
Defined.

(** ** Ending a poll *)

(** C6. On an existing poll [endPoll] succeeds exactly when the sender is the
    poll's creator and the stored [active] flag is set, at any timestamp
    (also past [endTime]); it then clears [active] in that poll and changes
    nothing else.  A sender other than the creator gets an
    AuthorizationError; the creator of a poll whose flag is already cleared
    gets an AlreadyEndedError, so the creator cannot end a poll twice.  A
    rejected call leaves the storage as it was. *)
Theorem endPoll_cases k env s :
  exists_poll s k = true ->
  let p := poll_at s k in
  (msg_sender env = Poll.creator p -> Poll.active p = true ->
     exec (endPoll k) env s = (Ok tt, store_poll k (Poll.set_active false p) s)) /\
  (msg_sender env <> Poll.creator p ->
     exec (endPoll k) env s = (Err (Revert "Only creator can end poll"), s) /\
     error_kind (Revert "Only creator can end poll") = Some AuthorizationError) /\
  (msg_sender env = Poll.creator p -> Poll.active p = false ->
     exec (endPoll k) env s = (Err (Revert "Poll already ended"), s) /\
     error_kind (Revert "Poll already ended") = Some AlreadyEndedError) /\
  (forall s' env',
     exec (endPoll k) env s = (Ok tt, s') ->
     msg_sender env' = msg_sender env ->
     Poll.active (poll_at s' k) = false /\
     exec (endPoll k) env' s' = (Err (Revert "Poll already ended"), s')).
Proof.
  intros Hk. cbv zeta. unfold exec. rewrite endPoll_eq. cbv zeta.
  rewrite Hk. simpl negb. cbv iota.
  split; [|split; [|split]].
  - intros Hc ->. apply N.eqb_eq in Hc as ->. reflexivity.
  - intros Hc. apply N.eqb_neq in Hc as ->. split; reflexivity.
  - intros Hc ->. apply N.eqb_eq in Hc as ->. split; reflexivity.
  - intros s' env' H Hsame.
    destruct (msg_sender env =? Poll.creator (poll_at s k)) eqn:Hc;
      simpl in H; [|discriminate H].
    destruct (Poll.active (poll_at s k)) eqn:Hact; simpl in H;
      [|discriminate H].
    injection H as <-.
    rewrite endPoll_eq. cbv zeta. rewrite poll_at_store_eq.
    change (exists_poll (store_poll k
              (Poll.set_active false (poll_at s k)) s) k)
      with (exists_poll s k).
    rewrite Hk, Hsame. simpl. rewrite Hc. simpl. split; reflexivity.
Qed.

Lemma endPoll_cases_witness :
  exec (endPoll 1) (mkEnv 100 9999) demo_voted3 =
    (Ok tt, store_poll 1 (Poll.set_active false (poll_at demo_voted3 1)) demo_voted3) /\
  exec (endPoll 1) (mkEnv 1 1500) demo_voted3 =
    (Err (Revert "Only creator can end poll"), demo_voted3) /\
  exec (endPoll 1) (mkEnv 100 1600) demo_ended =
    (Err (Revert "Poll already ended"), demo_ended).
Proof.
  assert (exists_poll demo_voted3 1 = true) as Hk by (vm_compute; reflexivity).
  assert (exists_poll demo_ended 1 = true) as Hk' by (vm_compute; reflexivity).
  destruct (endPoll_cases 1 (mkEnv 100 9999) demo_voted3 Hk) as [Hok _].
  destruct (endPoll_cases 1 (mkEnv 1 1500) demo_voted3 Hk) as [_ [Hauth _]].
  destruct (endPoll_cases 1 (mkEnv 100 1600) demo_ended Hk') as [_ [_ [Hended _]]].
  split; [|split].
  - apply Hok; vm_compute; reflexivity.
  - apply Hauth. vm_compute. discriminate.
  - apply Hended; vm_compute; reflexivity.
Defined.

(** ** Tallies *)

(** C7. In every storage the contract can reach, the counts of every poll
    sum to the number of distinct identities recorded as having voted on it,
    and no count is negative. *)
Theorem counts_sum_to_voters s k :
  reachable s ->
  sum_counts (Poll.voteCounts (poll_at s k)) =
    N.of_nat (size (voters (poll_at s k))) /\
  Forall (fun count => 0 <= count) (Poll.voteCounts (poll_at s k)).
Proof.
  intros Hs. split.
  - destruct (exists_poll s k) eqn:Hk.
    + apply (ok_sum k), ledger_ok_poll; [by apply reachable_ok | assumption].
    + rewrite poll_at_absent; [reflexivity|].
      by apply (ok_absent s (reachable_ok s Hs)).
  - apply Forall_forall. intros count _. lia.
Qed.

Lemma counts_sum_to_voters_witness :
  reachable demo_voted3 /\
  sum_counts (Poll.voteCounts (poll_at demo_voted3 1)) = 3 /\
  size (voters (poll_at demo_voted3 1)) = 3%nat.
Proof.
  split; [exact demo_voted3_reachable|].
  destruct (counts_sum_to_voters demo_voted3 1 demo_voted3_reachable) as [Hsum _].
  split; [vm_compute; reflexivity|].
  apply Nat2N.inj. rewrite <- Hsum. vm_compute. reflexivity.
Defined.

(** C8. On an existing poll [getPoll] returns the stored [id], [question],
    [options], [voteCounts], [creator] and [endTime]; its [active] is the
    stored flag in conjunction with [block.timestamp < endTime] at the time
    of the query; its [totalVotes] is the sum of [voteCounts]. *)
Theorem getPoll_snapshot k env s :
  reachable s -> exists_poll s k = true ->
  let p := poll_at s k in
  getPoll k env s =
    Ok (mkPollInfo (Poll.id p) (Poll.question p) (Poll.options p)
          (Poll.voteCounts p) (Poll.creator p) (Poll.endTime p)
          (Poll.active p && (block_timestamp env <? Poll.endTime p))
          (sum_counts (Poll.voteCounts p)),
        s, []).
Proof.
  intros Hs Hk. cbv zeta.
  pose proof (ledger_ok_poll s k (reachable_ok s Hs) Hk) as Hp.
  unfold getPoll, pollExists. unfold bind at 1. unfold bind at 1.
  unfold sload_pollCount at 1. unfold require at 1.
  fold (exists_poll s k). rewrite Hk.
  unfold bind at 1. unfold sload_poll at 1.
  unfold bind at 1. rewrite getPoll_loop.
  - reflexivity.
  - pose proof (ok_options _ _ Hp). pose proof (ok_lengths _ _ Hp).
    pose proof max_uint256_ge_duration. unfold len. lia.
  - pose proof (poll_ok_sum_bound _ _ Hp). pose proof max_address_lt_uint256. lia.
Qed.

Lemma getPoll_snapshot_witness :
  reachable demo_voted3 /\ reachable demo_ended /\
  getPoll 1 (mkEnv 9 1004) demo_voted3 =
    Ok (mkPollInfo 1 "best language?" demo_options [2; 1; 0; 0] 100 4600 true 3,
        demo_voted3, []) /\
  info_active <$> (fst <$> (fst <$>
     match getPoll 1 (mkEnv 9 4600) demo_voted3 with
     | Ok r => Some r | Err _ => None end)) = Some false.
Proof.
  split; [exact demo_voted3_reachable|].
  split; [exact demo_ended_reachable|].
  assert (exists_poll demo_voted3 1 = true) as Hk by (vm_compute; reflexivity).
  split.
  - rewrite (getPoll_snapshot 1 (mkEnv 9 1004) demo_voted3
               demo_voted3_reachable Hk).
    vm_compute. reflexivity.
  - rewrite (getPoll_snapshot 1 (mkEnv 9 4600) demo_voted3
               demo_voted3_reachable Hk).
    vm_compute. reflexivity.
Defined.

(** C3. On an existing poll, active or not, [getWinner] returns an index,
    the option text at that index and the count at that index, where the
    count is the maximum of [voteCounts] and the index is the first one that
    attains it (every count before it is strictly smaller).  When every count
    is zero the result is index 0, the first option and the count 0. *)
Theorem getWinner_leftmost k env s :
  reachable s -> exists_poll s k = true ->
  let p := poll_at s k in
  exists w text m,
    getWinner k env s = Ok ((w, text, m), s, []) /\
    Poll.options p !! N.to_nat w = Some text /\
    Poll.voteCounts p !! N.to_nat w = Some m /\
    (forall j c, Poll.voteCounts p !! j = Some c -> c <= m) /\
    (forall j c, (j < N.to_nat w)%nat -> Poll.voteCounts p !! j = Some c -> c < m) /\
    (Forall (fun c => c = 0) (Poll.voteCounts p) ->
       w = 0 /\ m = 0 /\ Poll.options p !! 0%nat = Some text).
Proof.
  intros Hs Hk. cbv zeta.
  pose proof (ledger_ok_poll s k (reachable_ok s Hs) Hk) as Hp.
  pose proof (ok_options _ _ Hp) as Hopts.
  pose proof (ok_lengths _ _ Hp) as Hlen.
  destruct (getWinner_loop (Poll.voteCounts (poll_at s k)) env s)
    as (m & w & Hloop & Hmax).
  { lia. }
  { pose proof max_uint256_ge_duration. unfold len. lia. }
  destruct Hmax as (Hw & Hle & Hlt).
  destruct (lookup_lt_is_Some_2 (Poll.options (poll_at s k)) (N.to_nat w))
    as [text Htext].
  { rewrite Hlen. by apply lookup_lt_Some in Hw. }
  exists w, text, m. split; [|repeat split; try assumption].
  - unfold getWinner, pollExists. unfold bind at 1. unfold bind at 1.
    unfold sload_pollCount at 1. unfold require at 1.
    fold (exists_poll s k). rewrite Hk.
    unfold bind at 1. unfold sload_poll at 1.
    unfold bind at 1. rewrite Hloop. simpl fst. simpl snd.
    unfold bind at 1. unfold lift at 1.
    rewrite (array_get_ok _ _ _ Htext). reflexivity.
  - destruct (decide (w = 0)) as [->|Hne]; [reflexivity|].
    destruct (lookup_lt_is_Some_2 (Poll.voteCounts (poll_at s k)) 0%nat)
      as [c Hc]; [lia|].
    pose proof (Hlt 0%nat c ltac:(lia) Hc).
    rewrite Forall_forall in H.
    pose proof (H m (list_elem_of_lookup_2 _ _ _ Hw)). lia.
  - rewrite Forall_forall in H.
    exact (H m (list_elem_of_lookup_2 _ _ _ Hw)).
  - destruct (decide (w = 0)) as [->|Hne]; [exact Htext|].
    destruct (lookup_lt_is_Some_2 (Poll.voteCounts (poll_at s k)) 0%nat)
      as [c Hc]; [lia|].
    pose proof (Hlt 0%nat c ltac:(lia) Hc).
    rewrite Forall_forall in H.
    pose proof (H m (list_elem_of_lookup_2 _ _ _ Hw)). lia.
Qed.

Lemma getWinner_leftmost_witness :
  reachable demo_tie /\
  Poll.voteCounts (poll_at demo_tie 1) = [2; 1; 2] /\
  getWinner 1 (mkEnv 9 5000) demo_tie = Ok ((0, "A", 2), demo_tie, []).
Proof.
  split; [exact demo_tie_reachable|].
  split; [vm_compute; reflexivity|].
  assert (exists_poll demo_tie 1 = true) as Hk by (vm_compute; reflexivity).
  destruct (getWinner_leftmost 1 (mkEnv 9 5000) demo_tie demo_tie_reachable Hk)
    as (w & text & m & -> & Htext & Hm & _ & Hlt & _).
  assert (Poll.voteCounts (poll_at demo_tie 1) = [2; 1; 2]) as Hcounts
    by (vm_compute; reflexivity).
  assert (Poll.options (poll_at demo_tie 1) = ["A"; "B"; "C"]) as Hoptions
    by (vm_compute; reflexivity).
  rewrite Hcounts in Hm, Hlt. rewrite Hoptions in Htext.
  destruct (N.to_nat w) as [|[|[|n]]] eqn:Hw; simpl in Hm, Htext;
    try discriminate Hm.
  - injection Hm as <-. injection Htext as <-.
    replace w with 0 by lia. reflexivity.
  - specialize (Hlt 0%nat 2 ltac:(lia) eq_refl). injection Hm as <-. lia.
  - specialize (Hlt 0%nat 2 ltac:(lia) eq_refl). injection Hm as <-. lia.
Defined.

(** ** Creating a poll *)

Lemma forallb_nonempty opts :
  forallb nonempty opts = true <-> Forall (fun o => 0 < bytes_length o) opts.
Proof.
  induction opts as [|o opts IH]; simpl.
  - split; [constructor | reflexivity].
  - rewrite andb_true_iff, Forall_cons, IH. unfold nonempty.
    by rewrite N.ltb_lt.
Qed.

Lemma forallb_nonempty_false opts :
  forallb nonempty opts = false <-> Exists (fun o => bytes_length o = 0) opts.
Proof.
  induction opts as [|o opts IH]; simpl.
  - split; [discriminate | by intros ?%Exists_nil].
  - rewrite andb_false_iff, Exists_cons, IH. unfold nonempty.
    rewrite N.ltb_ge. split; intros [H|H]; auto; left; lia.
Qed.

(** C4.  On a reachable storage and a valid input (a non-empty question, 2
    to 10 options, all non-empty, a duration of 1 to 10080 minutes),
    [createPoll] returns the old [pollCount] plus 1 and stores under that id
    a poll whose [voteCounts] has one zero per option, with [active] set, the
    sender as [creator] and [endTime = block.timestamp + duration * 60].
    The environment is one in which the counter and the clock are [uint256]
    values with room left: [pollCount + 1] and
    [block.timestamp + duration * 60] do not exceed [2^256 - 1], as in every
    state and block the contract can be in.  (Beyond that range the checked
    addition panics and the storage stays as it was.) *)
Theorem createPoll_valid q opts d env s :
  reachable s ->
  0 < bytes_length q ->
  2 <= len opts -> len opts <= 10 ->
  Forall (fun o => 0 < bytes_length o) opts ->
  0 < d -> d <= 10080 ->
  let k := pollCount s + 1 in
  let deadline := block_timestamp env + d * 60 in
  (k <= MAX_UINT256 -> deadline <= MAX_UINT256 ->
     exists s',
       exec (createPoll q opts d) env s = (Ok k, s') /\
       pollCount s' = k /\
       Poll.id (poll_at s' k) = k /\
       Poll.question (poll_at s' k) = q /\
       Poll.options (poll_at s' k) = opts /\
       Poll.voteCounts (poll_at s' k) = replicate (length opts) 0 /\
       Poll.active (poll_at s' k) = true /\
       Poll.creator (poll_at s' k) = msg_sender env /\
       Poll.endTime (poll_at s' k) = deadline) /\
  (MAX_UINT256 < k \/ MAX_UINT256 < deadline ->
     exec (createPoll q opts d) env s = (Err (Panic PANIC_OVERFLOW), s)).
Proof.
  intros Hs Hq Hlo Hhi Hne Hd0 Hd1. cbv zeta.
  unfold exec. rewrite createPoll_eq. cbv zeta.
  apply N.ltb_lt in Hq as ->. apply N.leb_le in Hlo as ->.
  apply N.leb_le in Hhi as ->. apply N.ltb_lt in Hd0 as ->.
  apply N.leb_le in Hd1 as ->. apply forallb_nonempty in Hne as ->.
  simpl negb. cbv iota. split.
  - intros Hk Hdl. apply N.leb_le in Hk as Hk'. apply N.leb_le in Hdl as ->.
    rewrite Hk'. simpl negb. cbv iota.
    eexists. split; [reflexivity|].
    rewrite poll_at_store_eq.
    assert (poll_at s (pollCount s + 1) = Poll.zero) as ->.
    { apply poll_at_absent, (ok_absent s (reachable_ok s Hs)), exists_poll_false.
      lia. }
    repeat split.
  - intros [Hk | Hdl].
    + apply N.leb_gt in Hk as ->. reflexivity.
    + apply N.leb_gt in Hdl as ->. simpl.
      destruct (pollCount s + 1 <=? MAX_UINT256); reflexivity.
Qed.

Lemma createPoll_valid_witness :
  reachable demo_voted3 /\
  exists s',
    exec (createPoll "tabs or spaces?" ["tabs"; "spaces"] 10080)
         (mkEnv 7 2000) demo_voted3 = (Ok 2, s') /\
    Poll.voteCounts (poll_at s' 2) = [0; 0] /\
    Poll.endTime (poll_at s' 2) = 606800.
Proof.
  split; [exact demo_voted3_reachable|].
  assert (0 < bytes_length "tabs or spaces?") as Hq by (vm_compute; reflexivity).
  assert (Forall (fun o => 0 < bytes_length o) ["tabs"; "spaces"]) as Hne
    by (repeat constructor).
  destruct (createPoll_valid "tabs or spaces?" ["tabs"; "spaces"] 10080
              (mkEnv 7 2000) demo_voted3 demo_voted3_reachable Hq
              ltac:(vm_compute; discriminate) ltac:(vm_compute; discriminate)
              Hne ltac:(lia) ltac:(lia)) as [Hok _].
  destruct Hok as (s' & Hexec & _ & _ & _ & _ & Hcounts & _ & _ & Hend).
  - apply N.leb_le. vm_compute. reflexivity.
  - apply N.leb_le. vm_compute. reflexivity.
  - exists s'. split; [exact Hexec|]. split; [exact Hcounts | exact Hend].
Defined.

(** C5.  [createPoll] rejects an invalid input with the reason of the
    first check that fails, in this order, whatever holds of the later ones:
    the question is empty; there are fewer than 2 options; there are more
    than 10; the duration is 0; the duration exceeds 10080; an option is
    empty.  The six reasons are pairwise different, each is a
    ValidationError, and every rejected call leaves the storage as it was.
    The environment of the last check is one in which the counter and the
    clock are [uint256] values with room left: [pollCount + 1] and
    [block.timestamp + duration * 60] do not exceed [2^256 - 1], as in every
    state and block the contract can be in.  (Beyond that range, once the
    first five checks pass, the call panics before it looks at the options,
    empty or not.) *)
Theorem createPoll_rejects q opts d env s :
  (bytes_length q = 0 ->
     exec (createPoll q opts d) env s =
       (Err (Revert "Question cannot be empty"), s)) /\
  (0 < bytes_length q -> len opts < 2 ->
     exec (createPoll q opts d) env s =
       (Err (Revert "Need at least 2 options"), s)) /\
  (0 < bytes_length q -> 10 < len opts ->
     exec (createPoll q opts d) env s =
       (Err (Revert "Maximum 10 options allowed"), s)) /\
  (0 < bytes_length q -> 2 <= len opts -> len opts <= 10 -> d = 0 ->
     exec (createPoll q opts d) env s =
       (Err (Revert "Duration must be positive"), s)) /\
  (0 < bytes_length q -> 2 <= len opts -> len opts <= 10 -> 10080 < d ->
     exec (createPoll q opts d) env s =
       (Err (Revert "Max duration is 7 days"), s)) /\
  (0 < bytes_length q -> 2 <= len opts -> len opts <= 10 ->
   0 < d -> d <= 10080 ->
   Exists (fun o => bytes_length o = 0) opts ->
   pollCount s + 1 <= MAX_UINT256 ->
   block_timestamp env + d * 60 <= MAX_UINT256 ->
     exec (createPoll q opts d) env s =
       (Err (Revert "Option cannot be empty"), s)) /\
  (0 < bytes_length q -> 2 <= len opts -> len opts <= 10 ->
   0 < d -> d <= 10080 ->
   MAX_UINT256 < pollCount s + 1 \/
   MAX_UINT256 < block_timestamp env + d * 60 ->
     exec (createPoll q opts d) env s = (Err (Panic PANIC_OVERFLOW), s)) /\
  NoDup createPoll_reasons /\
  Forall (fun r => error_kind (Revert r) = Some ValidationError)
         createPoll_reasons /\
  (forall e, fst (exec (createPoll q opts d) env s) = Err e ->
             snd (exec (createPoll q opts d) env s) = s).
Proof.
  unfold exec. rewrite createPoll_eq. cbv zeta.
  split; [|split; [|split; [|split; [|split; [|split; [|split; [|split; [|split]]]]]]]].
  - intros Hq. rewrite (proj2 (N.ltb_ge 0 (bytes_length q))) by lia.
    reflexivity.
  - intros Hq Hn. apply N.ltb_lt in Hq as ->. apply N.leb_gt in Hn as ->.
    reflexivity.
  - intros Hq Hn. apply N.ltb_lt in Hq as ->.
    rewrite (proj2 (N.leb_le 2 (len opts))) by lia.
    apply N.leb_gt in Hn as ->. reflexivity.
  - intros Hq Hlo Hhi ->. apply N.ltb_lt in Hq as ->.
    apply N.leb_le in Hlo as ->. apply N.leb_le in Hhi as ->. reflexivity.
  - intros Hq Hlo Hhi Hd. apply N.ltb_lt in Hq as ->.
    apply N.leb_le in Hlo as ->. apply N.leb_le in Hhi as ->.
    rewrite (proj2 (N.ltb_lt 0 d)) by lia.
    apply N.leb_gt in Hd as ->. reflexivity.
  - intros Hq Hlo Hhi Hd0 Hd1 Hempty Hk Hdl. apply N.ltb_lt in Hq as ->.
    apply N.leb_le in Hlo as ->. apply N.leb_le in Hhi as ->.
    apply N.ltb_lt in Hd0 as ->. apply N.leb_le in Hd1 as ->.
    apply N.leb_le in Hk as ->. apply N.leb_le in Hdl as ->.
    apply forallb_nonempty_false in Hempty as ->. reflexivity.
  - intros Hq Hlo Hhi Hd0 Hd1 Hover. apply N.ltb_lt in Hq as ->.
    apply N.leb_le in Hlo as ->. apply N.leb_le in Hhi as ->.
    apply N.ltb_lt in Hd0 as ->. apply N.leb_le in Hd1 as ->. simpl.
    destruct Hover as [Hk | Hdl].
    + apply N.leb_gt in Hk as ->. reflexivity.
    + apply N.leb_gt in Hdl as ->. simpl.
      destruct (pollCount s + 1 <=? MAX_UINT256); reflexivity.
  - unfold createPoll_reasons.
    repeat (apply NoDup_cons; split;
            [rewrite ?elem_of_cons, elem_of_nil; intuition discriminate|]).
    by apply NoDup_nil.
  - unfold createPoll_reasons. repeat constructor.
  - intros e.
    repeat match goal with
           | |- context [if ?b then _ else _] => destruct b; simpl; try done
           end.
Qed.

Lemma createPoll_rejects_witness :
  exec (createPoll "" demo_options 60) alice demo_created =
    (Err (Revert "Question cannot be empty"), demo_created) /\
  exec (createPoll "q" ["only"] 0) alice demo_created =
    (Err (Revert "Need at least 2 options"), demo_created) /\
  exec (createPoll "q" (replicate 11 "") 0) alice demo_created =
    (Err (Revert "Maximum 10 options allowed"), demo_created) /\
  exec (createPoll "q" ["a"; ""] 0) alice demo_created =
    (Err (Revert "Duration must be positive"), demo_created) /\
  exec (createPoll "q" ["a"; ""] 10081) alice demo_created =
    (Err (Revert "Max duration is 7 days"), demo_created) /\
  exec (createPoll "q" ["a"; ""; "c"; ""] 60) alice demo_created =
    (Err (Revert "Option cannot be empty"), demo_created).
Proof.
  destruct (createPoll_rejects "" demo_options 60 alice demo_created)
    as [H1 _].
  destruct (createPoll_rejects "q" ["only"] 0 alice demo_created)
    as [_ [H2 _]].
  destruct (createPoll_rejects "q" (replicate 11 "") 0 alice demo_created)
    as [_ [_ [H3 _]]].
  destruct (createPoll_rejects "q" ["a"; ""] 0 alice demo_created)
    as [_ [_ [_ [H4 _]]]].
  destruct (createPoll_rejects "q" ["a"; ""] 10081 alice demo_created)
    as [_ [_ [_ [_ [H5 _]]]]].
  destruct (createPoll_rejects "q" ["a"; ""; "c"; ""] 60 alice demo_created)
    as [_ [_ [_ [_ [_ [H6 _]]]]]].
  split; [|split; [|split; [|split; [|split]]]].
  - apply H1. vm_compute. reflexivity.
  - apply H2; vm_compute; reflexivity.
  - apply H3; vm_compute; reflexivity.
  - apply H4; solve [vm_compute; reflexivity | vm_compute; discriminate].
  - apply H5; solve [vm_compute; reflexivity | vm_compute; discriminate].
  - apply H6.
    + vm_compute. reflexivity.
    + vm_compute. discriminate.
    + vm_compute. discriminate.
    + vm_compute. reflexivity.
    + vm_compute. discriminate.
    + apply Exists_cons. right. apply Exists_cons. left. reflexivity.
    + apply N.leb_le. vm_compute. reflexivity.
    + apply N.leb_le. vm_compute. reflexivity.
Defined.

(** ** The active polls *)

(** C9.  On every storage, at every timestamp, [getActivePolls] returns
    exactly the ids [k] in [1 .. pollCount] whose stored [active] flag is set
    and whose [endTime] lies after the timestamp, in strictly ascending order
    (so without duplicates).  A poll that is still flagged but past its
    [endTime], and a poll ended by its creator, are left out.  The
    environment is one in which the loop counter has room: [pollCount] is
    below [2^256 - 1], which holds of every state the contract can be in. *)
Theorem getActivePolls_exact env s :
  pollCount s < MAX_UINT256 ->
  exists ids,
    getActivePolls env s = Ok (ids, s, []) /\
    (forall k, k ∈ ids <->
       1 <= k /\ k <= pollCount s /\
       Poll.active (poll_at s k) = true /\
       block_timestamp env < Poll.endTime (poll_at s k)) /\
    (forall i j a b, (i < j)%nat ->
       ids !! i = Some a -> ids !! j = Some b -> a < b).
Proof.
  intros Hmax. exists (open_ids env s (N.to_nat (pollCount s))).
  split; [by apply getActivePolls_eq|]. split.
  - intros k. rewrite open_ids_elem, N2Nat.id. unfold open_at.
    rewrite andb_true_iff, N.ltb_lt. tauto.
  - intros i j a b. apply open_ids_ascending.
Qed.

(** The three polls of [demo_three] at time 2000: only the first is listed. *)
Example getActivePolls_demo :
  getActivePolls (mkEnv 9 2000) demo_three = Ok ([1], demo_three, []) /\
  Poll.active (poll_at demo_three 2) = true /\
  Poll.active (poll_at demo_three 3) = false.
Proof. repeat split; vm_compute; reflexivity. Qed.

Lemma getActivePolls_exact_witness :
  pollCount demo_three < MAX_UINT256 /\
  exists ids,
    getActivePolls (mkEnv 9 2000) demo_three = Ok (ids, demo_three, []) /\
    (2 ∈ ids <->
       1 <= 2 /\ 2 <= pollCount demo_three /\
       Poll.active (poll_at demo_three 2) = true /\
       2000 < Poll.endTime (poll_at demo_three 2)).
Proof.
  assert (pollCount demo_three < MAX_UINT256) as Hmax
    by (apply N.ltb_lt; vm_compute; reflexivity).
  split; [exact Hmax|].
  destruct (getActivePolls_exact (mkEnv 9 2000) demo_three Hmax)
    as (ids & Hids & Hmem & _).
  exists ids. split; [exact Hids | exact (Hmem 2)].
Defined.

(** The increment after the last iteration of [i <= pollCount] overflows when
    [pollCount] is the last [uint256]: whatever the polls are, the first pass
    ends in a panic. *)
Lemma getActivePolls_count_outcome i c env s :
  (exists c', getActivePolls_count i c env s = Ok (c', s, [])) \/
  getActivePolls_count i c env s = Err (Panic PANIC_OVERFLOW).
Proof.
  unfold getActivePolls_count, bind. rewrite active_now_eq.
  destruct (open_at env s i).
  - unfold lift, checked_add. destruct (c + 1 <=? MAX_UINT256); eauto.
  - unfold ret. eauto.
Qed.

Lemma getActivePolls_count_overflow n i c env s :
  (0 < n)%nat -> i + N.of_nat n = MAX_UINT256 + 1 ->
  for_loop n i getActivePolls_count c env s = Err (Panic PANIC_OVERFLOW).
Proof.
  revert i c. induction n as [|n IH]; intros i c Hn Hi; [lia|].
  cbn [for_loop]. unfold bind at 1.
  destruct (getActivePolls_count_outcome i c env s) as [[c' ->] | ->];
    [|reflexivity].
  unfold bind at 1. unfold lift at 1.
  destruct n as [|n].
  - rewrite checked_add_overflow by lia. reflexivity.
  - rewrite checked_add_ok by lia. rewrite IH by lia. reflexivity.
Qed.

Lemma getActivePolls_overflow env s :
  pollCount s = MAX_UINT256 ->
  getActivePolls env s = Err (Panic PANIC_OVERFLOW).
Proof.
  intros Hfull. unfold getActivePolls. unfold bind at 1.
  unfold sload_pollCount. rewrite Hfull.
  pose proof max_uint256_ge_duration.
  unfold bind at 1.
  rewrite getActivePolls_count_overflow; [reflexivity | lia | lia].
Qed.

(** ** Histories of calls *)

(** The three shapes of a successful state-changing call. *)
Lemma step_inv s s' :
  step s s' ->
  (exists env q opts d,
     let k := pollCount s + 1 in
     let deadline := block_timestamp env + d * 60 in
     wf_env env /\ 2 <= len opts /\ len opts <= 10 /\ 0 < d /\
     forallb nonempty opts = true /\
     k <= MAX_UINT256 /\ deadline <= MAX_UINT256 /\
     s' = store_poll k
            (created_poll k q opts (msg_sender env) deadline (poll_at s k))
            (store_pollCount k s)) \/
  (exists env k i count,
     let p := poll_at s k in
     wf_env env /\ exists_poll s k = true /\ Poll.active p = true /\
     block_timestamp env < Poll.endTime p /\
     mapping_get false (Poll.hasVoted p) (msg_sender env) = false /\
     i < len (Poll.options p) /\
     Poll.voteCounts p !! N.to_nat i = Some count /\
     s' = store_poll k (voted_poll (msg_sender env) i count p) s) \/
  (exists env k,
     let p := poll_at s k in
     wf_env env /\ exists_poll s k = true /\
     msg_sender env = Poll.creator p /\ Poll.active p = true /\
     s' = store_poll k (Poll.set_active false p) s).
Proof.
  intros [env q opts d k s1 ev Henv H | env k i s1 ev Henv H
         | env k s1 ev Henv H].
  - left. apply createPoll_Ok_inv in H
      as (_ & ? & ? & ? & _ & ? & -> & ? & ? & -> & _).
    exists env, q, opts, d. cbv zeta.
    refine (conj Henv _). repeat split; assumption.
  - right. left. apply vote_Ok_inv in H
      as (? & ? & ? & ? & ? & count & ? & _ & -> & _).
    exists env, k, i, count. cbv zeta.
    refine (conj Henv _). repeat split; assumption.
  - right. right. apply endPoll_Ok_inv in H as (? & ? & ? & -> & _).
    exists env, k. cbv zeta.
    refine (conj Henv _). repeat split; assumption.
Qed.

Lemma steps_reachable s s' : reachable s -> steps s s' -> reachable s'.
Proof.
  intros Hs Hsteps. induction Hsteps as [s | s s1 s2 Hstep _ IH].
  - exact Hs.
  - apply IH. by eapply reachable_step.
Qed.

(** What one successful call does to the poll stored under a given key. *)
Lemma step_poll s s' k :
  step s s' ->
  let p := poll_at s k in
  poll_at s' k = p \/
  (exists q opts who deadline,
     k = pollCount s + 1 /\ pollCount s' = k /\
     2 <= len opts /\ len opts <= 10 /\ forallb nonempty opts = true /\
     who <= MAX_ADDRESS /\ 60 <= deadline /\ deadline <= MAX_UINT256 /\
     poll_at s' k = created_poll k q opts who deadline p) \/
  (exists who i count,
     exists_poll s k = true /\ who <= MAX_ADDRESS /\
     Poll.active p = true /\
     mapping_get false (Poll.hasVoted p) who = false /\
     i < len (Poll.options p) /\
     Poll.voteCounts p !! N.to_nat i = Some count /\
     poll_at s' k = voted_poll who i count p) \/
  (exists_poll s k = true /\ Poll.active p = true /\
   poll_at s' k = Poll.set_active false p).
Proof.
  intros Hstep. cbv zeta.
  destruct (step_inv s s' Hstep)
    as [(env & q & opts & d & Hc) | [(env & j & i & count & Hv) | (env & j & He)]];
    cbv zeta in *.
  - destruct Hc as ([Hwho _] & Hlo & Hhi & Hd & Hne & Hk & Hdl & ->).
    destruct (decide (pollCount s + 1 = k)) as [<-|Hneq].
    + right. left.
      exists q, opts, (msg_sender env), (block_timestamp env + d * 60).
      rewrite poll_at_store_eq. simpl. repeat split; try assumption. lia.
    + left. by rewrite poll_at_store_ne.
  - destruct Hv as ([Hwho _] & Hex & Hact & Hts & Hnew & Hi & Hcount & ->).
    destruct (decide (j = k)) as [->|Hneq].
    + right. right. left. exists (msg_sender env), i, count.
      rewrite poll_at_store_eq. repeat split; assumption.
    + left. by rewrite poll_at_store_ne.
  - destruct He as (_ & Hex & _ & Hact & ->).
    destruct (decide (j = k)) as [->|Hneq].
    + right. right. right. rewrite poll_at_store_eq. repeat split; assumption.
    + left. by rewrite poll_at_store_ne.
Qed.

Lemma step_pollCount s s' :
  step s s' -> pollCount s' = pollCount s \/ pollCount s' = pollCount s + 1.
Proof.
  intros Hstep.
  destruct (step_inv s s' Hstep)
    as [(env & q & opts & d & Hc) | [(env & j & i & count & Hv) | (env & j & He)]];
    cbv zeta in *.
  - destruct Hc as (_ & _ & _ & _ & _ & _ & _ & ->). right. reflexivity.
  - destruct Hv as (_ & _ & _ & _ & _ & _ & _ & ->). left. reflexivity.
  - destruct He as (_ & _ & _ & _ & ->). left. reflexivity.
Qed.

Lemma step_exists_poll s s' k :
  step s s' -> exists_poll s k = true -> exists_poll s' k = true.
Proof.
  intros Hstep. rewrite !exists_poll_iff.
  destruct (step_pollCount s s' Hstep) as [-> | ->]; lia.
Qed.

(** X2. [pollCount] never decreases, a single call raises it by at most
    one, and a poll that exists keeps existing: ids are never reused and no
    poll is ever removed. *)
Theorem pollCount_only_grows s s' :
  steps s s' ->
  pollCount s <= pollCount s' /\
  (forall k, exists_poll s k = true -> exists_poll s' k = true) /\
  (step s s' -> pollCount s' <= pollCount s + 1).
Proof.
  intros Hsteps. split; [|split].
  - induction Hsteps as [s | s s1 s2 Hstep _ IH]; [lia|].
    destruct (step_pollCount s s1 Hstep) as [Heq | Heq]; lia.
  - induction Hsteps as [s | s s1 s2 Hstep _ IH]; [auto|].
    intros k Hk. apply IH. by eapply step_exists_poll.
  - intros Hstep. destruct (step_pollCount s s' Hstep) as [-> | ->]; lia.
Qed.

Lemma pollCount_only_grows_witness :
  steps demo_created demo_voted3 /\ pollCount demo_created <= pollCount demo_voted3.
Proof.
  assert (steps demo_created demo_voted3) as Hsteps.
  { eapply rtc_l; [eapply (step_vote _ (mkEnv 1 1001) 1 0);
                     [apply wf_env_small; lia | vm_compute; reflexivity]|].
    eapply rtc_l; [eapply (step_vote _ (mkEnv 2 1002) 1 0);
                     [apply wf_env_small; lia | vm_compute; reflexivity]|].
    eapply rtc_l; [eapply (step_vote _ (mkEnv 3 1003) 1 1);
                     [apply wf_env_small; lia | vm_compute; reflexivity]|].
    apply rtc_refl. }
  split; [exact Hsteps|].
  apply (pollCount_only_grows demo_created demo_voted3 Hsteps).
Defined.

Lemma steps_trans s1 s2 s3 : steps s1 s2 -> steps s2 s3 -> steps s1 s3.
Proof. unfold steps. intros H1 H2. by etransitivity. Qed.

Lemma steps_exists_poll s s' k :
  steps s s' -> exists_poll s k = true -> exists_poll s' k = true.
Proof.
  induction 1 as [s | s s1 s2 Hstep _ IH]; [auto|].
  intros Hk. apply IH. by eapply step_exists_poll.
Qed.

Lemma steps_run_call env c s : wf_env env -> steps s (run_call env c s).
Proof.
  intros Henv. destruct c as [q opts d | k i | k]; unfold run_call, exec.
  - destruct (createPoll q opts d env s) as [[[k s'] ev]|e] eqn:H;
      [|apply rtc_refl].
    apply rtc_once. by eapply step_createPoll.
  - destruct (vote k i env s) as [[[[] s'] ev]|e] eqn:H; [|apply rtc_refl].
    apply rtc_once. by eapply step_vote.
  - destruct (endPoll k env s) as [[[[] s'] ev]|e] eqn:H; [|apply rtc_refl].
    apply rtc_once. by eapply step_endPoll.
Qed.

Lemma steps_run_calls calls s :
  Forall (fun ec => wf_env (fst ec)) calls -> steps s (run_calls calls s).
Proof.
  revert s. induction calls as [|[env c] calls IH]; intros s Hwf.
  - apply rtc_refl.
  - inversion Hwf as [|? ? Henv Hrest]; subst. simpl.
    eapply steps_trans; [by apply steps_run_call | by apply IH].
Qed.

Ltac solve_steps :=
  apply steps_run_calls;
  repeat (apply Forall_cons; split; [apply wf_env_small; simpl; lia|]);
  apply Forall_nil; exact I.

Lemma demo_steps_voted : steps demo_created demo_voted3.
Proof.
  eapply steps_trans; [|unfold demo_voted3; solve_steps].
  unfold demo_voted2. solve_steps.
Qed.

Lemma demo_steps_ended : steps demo_voted3 demo_ended.
Proof. unfold demo_ended. solve_steps. Qed.

(** A later storage: after the poll was ended, account 4 tries to vote and
    account 100 opens a second poll. *)
Lemma demo_steps_later :
  steps demo_ended
    (run_calls [ (mkEnv 4 1600, Vote 1 2);
                 (mkEnv 100 1700, CreatePoll "next?" ["a"; "b"] 30) ] demo_ended).
Proof. solve_steps. Qed.

(** X3. Whatever calls follow, an existing poll keeps its [id], [question],
    [options], [creator] and [endTime], and the number of its counts. *)
Theorem stored_fields_immutable s s' k :
  steps s s' -> exists_poll s k = true ->
  let p := poll_at s k in
  let p' := poll_at s' k in
  Poll.id p' = Poll.id p /\
  Poll.question p' = Poll.question p /\
  Poll.options p' = Poll.options p /\
  Poll.creator p' = Poll.creator p /\
  Poll.endTime p' = Poll.endTime p /\
  length (Poll.voteCounts p') = length (Poll.voteCounts p).
Proof.
  intros Hsteps. cbv zeta.
  induction Hsteps as [s | s s1 s2 Hstep _ IH]; intros Hk; [by repeat split|].
  specialize (IH (step_exists_poll _ _ _ Hstep Hk)).
  assert (Poll.id (poll_at s1 k) = Poll.id (poll_at s k) /\
          Poll.question (poll_at s1 k) = Poll.question (poll_at s k) /\
          Poll.options (poll_at s1 k) = Poll.options (poll_at s k) /\
          Poll.creator (poll_at s1 k) = Poll.creator (poll_at s k) /\
          Poll.endTime (poll_at s1 k) = Poll.endTime (poll_at s k) /\
          length (Poll.voteCounts (poll_at s1 k)) =
            length (Poll.voteCounts (poll_at s k))) as H1.
  { destruct (step_poll s s1 k Hstep)
      as [-> | [(q & opts & who & dl & Hnew & _) | [(who & i & c & Hv) | He]]].
    - by repeat split.
    - apply exists_poll_iff in Hk. lia.
    - destruct Hv as (_ & _ & _ & _ & _ & _ & ->). simpl.
      repeat split. apply length_insert.
    - destruct He as (_ & _ & ->). by repeat split. }
  destruct IH as (-> & -> & -> & -> & -> & ->). exact H1.
Qed.

Lemma stored_fields_immutable_witness :
  steps demo_created demo_ended /\
  Poll.options (poll_at demo_ended 1) = demo_options /\
  Poll.endTime (poll_at demo_ended 1) = 4600.
Proof.
  assert (steps demo_created demo_ended) as Hsteps
    by (eapply steps_trans; [apply demo_steps_voted | apply demo_steps_ended]).
  assert (exists_poll demo_created 1 = true) as Hk by (vm_compute; reflexivity).
  split; [exact Hsteps|].
  destruct (stored_fields_immutable demo_created demo_ended 1 Hsteps Hk)
    as (_ & _ & Hopts & _ & Hend & _).
  split.
  - rewrite Hopts. vm_compute. reflexivity.
  - rewrite Hend. vm_compute. reflexivity.
Defined.

(** X4. Once the stored [active] flag of an existing poll is cleared, no
    later call changes anything in that poll: whatever calls follow, its
    record, with counts and vote records, stays as it is, every [vote] on it
    is rejected with "Poll is not active" and every [endPoll] on it is
    rejected. *)
Theorem ended_poll_frozen s s' k :
  steps s s' -> exists_poll s k = true ->
  Poll.active (poll_at s k) = false ->
  poll_at s' k = poll_at s k /\
  (forall env i,
     exec (vote k i) env s' = (Err (Revert "Poll is not active"), s')) /\
  (forall env, exists e, exec (endPoll k) env s' = (Err e, s')).
Proof.
  intros Hsteps Hk Hact.
  assert (poll_at s' k = poll_at s k) as Hsame.
  { induction Hsteps as [s | s s1 s2 Hstep _ IH]; [reflexivity|].
    assert (poll_at s1 k = poll_at s k) as H1.
    { destruct (step_poll s s1 k Hstep)
        as [-> | [(q & opts & who & dl & Hnew & _) | [(who & i & c & Hv) | He]]].
      - reflexivity.
      - apply exists_poll_iff in Hk. lia.
      - destruct Hv as (_ & _ & Hact' & _). congruence.
      - destruct He as (_ & Hact' & _). congruence. }
    rewrite IH; [exact H1 | by eapply step_exists_poll | by rewrite H1]. }
  assert (exists_poll s' k = true) as Hk' by (by eapply steps_exists_poll).
  split; [exact Hsame|]. split.
  - intros env i. unfold exec. rewrite vote_eq. cbv zeta.
    rewrite Hk', Hsame, Hact. reflexivity.
  - intros env. unfold exec. rewrite endPoll_eq. cbv zeta.
    rewrite Hk', Hsame, Hact. simpl.
    destruct (msg_sender env =? Poll.creator (poll_at s k)); simpl; eauto.
Qed.

Lemma ended_poll_frozen_witness :
  steps demo_ended
    (run_calls [ (mkEnv 4 1600, Vote 1 2);
                 (mkEnv 100 1700, CreatePoll "next?" ["a"; "b"] 30) ] demo_ended) /\
  exec (vote 1 2) (mkEnv 5 1800)
    (run_calls [ (mkEnv 4 1600, Vote 1 2);
                 (mkEnv 100 1700, CreatePoll "next?" ["a"; "b"] 30) ] demo_ended) =
    (Err (Revert "Poll is not active"),
     run_calls [ (mkEnv 4 1600, Vote 1 2);
                 (mkEnv 100 1700, CreatePoll "next?" ["a"; "b"] 30) ] demo_ended).
Proof.
  split; [exact demo_steps_later|].
  assert (exists_poll demo_ended 1 = true) as Hk by (vm_compute; reflexivity).
  assert (Poll.active (poll_at demo_ended 1) = false) as Hact
    by (vm_compute; reflexivity).
  destruct (ended_poll_frozen demo_ended _ 1 demo_steps_later Hk Hact)
    as (_ & Hvote & _).
  exact (Hvote (mkEnv 5 1800) 2).
Defined.

Lemma step_vote_record s s' k a :
  step s s' ->
  mapping_get false (Poll.hasVoted (poll_at s k)) a = true ->
  mapping_get false (Poll.hasVoted (poll_at s' k)) a = true /\
  mapping_get 0 (Poll.voterChoice (poll_at s' k)) a =
    mapping_get 0 (Poll.voterChoice (poll_at s k)) a.
Proof.
  intros Hstep Ha.
  destruct (step_poll s s' k Hstep)
    as [-> | [(q & opts & who & dl & Hc) | [(who & i & c & Hv) | He]]].
  - by split.
  - destruct Hc as (_ & _ & _ & _ & _ & _ & _ & _ & ->). by split.
  - destruct Hv as (_ & _ & _ & Hnew & _ & _ & ->). simpl.
    assert (who <> a) by congruence.
    by rewrite !mapping_get_insert_ne.
  - destruct He as (_ & _ & ->). by split.
Qed.

Lemma steps_vote_record s s' k a :
  steps s s' ->
  mapping_get false (Poll.hasVoted (poll_at s k)) a = true ->
  mapping_get false (Poll.hasVoted (poll_at s' k)) a = true /\
  mapping_get 0 (Poll.voterChoice (poll_at s' k)) a =
    mapping_get 0 (Poll.voterChoice (poll_at s k)) a.
Proof.
  induction 1 as [s | s s1 s2 Hstep _ IH]; intros Ha; [by split|].
  destruct (step_vote_record s s1 k a Hstep Ha) as [Ha1 Hc1].
  destruct (IH Ha1) as [Ha2 Hc2]. split; [exact Ha2 | congruence].
Qed.

(** X5. A vote record is permanent: once [hasVoted(k, a)] returns [true],
    then after any further calls [hasVoted(k, a)] still returns [true] and
    [getVoterChoice(k, a)] still returns the same index. *)
Theorem vote_record_permanent s s' k a env :
  steps s s' ->
  hasVoted k a env s = Ok (true, s, []) ->
  forall env',
    hasVoted k a env' s' = Ok (true, s', []) /\
    exists i, getVoterChoice k a env s = Ok (i, s, []) /\
              getVoterChoice k a env' s' = Ok (i, s', []).
Proof.
  intros Hsteps Hvoted env'.
  rewrite hasVoted_eq in Hvoted.
  destruct (exists_poll s k) eqn:Hk; [|discriminate Hvoted]. simpl in Hvoted.
  injection Hvoted as Ha.
  assert (exists_poll s' k = true) as Hk' by (by eapply steps_exists_poll).
  assert (mapping_get false (Poll.hasVoted (poll_at s' k)) a = true /\
          mapping_get 0 (Poll.voterChoice (poll_at s' k)) a =
            mapping_get 0 (Poll.voterChoice (poll_at s k)) a) as [Ha' Hc'].
  { by apply steps_vote_record. }
  rewrite hasVoted_eq, !getVoterChoice_eq, Hk, Hk', Ha, Ha'. simpl.
  split; [reflexivity|].
  eexists. split; [reflexivity|]. by rewrite Hc'.
Qed.

Lemma vote_record_permanent_witness :
  hasVoted 1 1 alice demo_voted3 = Ok (true, demo_voted3, []) /\
  hasVoted 1 1 (mkEnv 9 9999) demo_ended = Ok (true, demo_ended, []).
Proof.
  assert (hasVoted 1 1 alice demo_voted3 = Ok (true, demo_voted3, [])) as Hv
    by (vm_compute; reflexivity).
  split; [exact Hv|].
  destruct (vote_record_permanent demo_voted3 demo_ended 1 1 alice
              demo_steps_ended Hv (mkEnv 9 9999)) as [Hstill _].
  exact Hstill.
Defined.

(** X6. One vote per identity: after a successful [vote(k, _)] by a sender,
    whatever calls follow, every further [vote(k, _)] by that sender is
    rejected and changes nothing.  The rejection is "Already voted" when the
    poll is still flagged active and before its deadline, and a
    NotActiveError otherwise: "Poll is not active" when the flag is cleared,
    "Poll has ended" when the flag is set and the deadline has passed. *)
Theorem no_second_vote k i env s s1 ev s2 env' j :
  vote k i env s = Ok (tt, s1, ev) ->
  steps s1 s2 ->
  msg_sender env' = msg_sender env ->
  exists e,
    exec (vote k j) env' s2 = (Err e, s2) /\
    (Poll.active (poll_at s2 k) = true ->
     block_timestamp env' < Poll.endTime (poll_at s2 k) ->
     e = Revert "Already voted" /\
     error_kind e = Some DuplicateVoteError) /\
    (Poll.active (poll_at s2 k) = false ->
     e = Revert "Poll is not active" /\
     error_kind e = Some NotActiveError) /\
    (Poll.active (poll_at s2 k) = true ->
     Poll.endTime (poll_at s2 k) <= block_timestamp env' ->
     e = Revert "Poll has ended" /\
     error_kind e = Some NotActiveError).
Proof.
  intros Hvote Hsteps Hsame.
  apply vote_Ok_inv in Hvote as (Hk & _ & _ & _ & _ & count & _ & _ & -> & _).
  assert (exists_poll s2 k = true) as Hk2.
  { eapply steps_exists_poll; [exact Hsteps | exact Hk]. }
  assert (mapping_get false (Poll.hasVoted (poll_at s2 k)) (msg_sender env) = true)
    as Hrec.
  { eapply steps_vote_record; [exact Hsteps|].
    rewrite poll_at_store_eq. simpl. apply mapping_get_insert_eq. }
  unfold exec. rewrite vote_eq. cbv zeta. rewrite Hk2, Hsame, Hrec. simpl.
  destruct (Poll.active (poll_at s2 k)); simpl.
  - destruct (block_timestamp env' <? Poll.endTime (poll_at s2 k)) eqn:Hts;
      simpl.
    + apply N.ltb_lt in Hts.
      eexists. split; [reflexivity|]. split; [by split|].
      split; [discriminate|]. intros _ Hle. lia.
    + apply N.ltb_ge in Hts.
      eexists. split; [reflexivity|]. split; [intros _ Hlt; lia|].
      split; [discriminate|]. by split.
  - eexists. split; [reflexivity|]. split; [discriminate|].
    split; [by split | discriminate].
Qed.

Lemma no_second_vote_witness :
  vote 1 1 (mkEnv 3 1003) demo_voted2 =
    Ok (tt, demo_voted3, [VoteCast 1 3 1]) /\
  steps demo_voted3 demo_voted3 /\ steps demo_voted3 demo_ended /\
  exec (vote 1 0) (mkEnv 3 2000) demo_voted3 =
    (Err (Revert "Already voted"), demo_voted3) /\
  exec (vote 1 0) (mkEnv 3 4600) demo_voted3 =
    (Err (Revert "Poll has ended"), demo_voted3) /\
  exec (vote 1 0) (mkEnv 3 2000) demo_ended =
    (Err (Revert "Poll is not active"), demo_ended).
Proof.
  assert (vote 1 1 (mkEnv 3 1003) demo_voted2 =
            Ok (tt, demo_voted3, [VoteCast 1 3 1])) as H
    by (vm_compute; reflexivity).
  assert (steps demo_voted3 demo_voted3) as Hrefl by apply rtc_refl.
  split; [exact H|]. split; [exact Hrefl|]. split; [exact demo_steps_ended|].
  destruct (no_second_vote 1 1 (mkEnv 3 1003) demo_voted2 demo_voted3 _
              demo_voted3 (mkEnv 3 2000) 0 H Hrefl eq_refl)
    as (e1 & He1 & Hopen & _ & _).
  destruct (no_second_vote 1 1 (mkEnv 3 1003) demo_voted2 demo_voted3 _
              demo_voted3 (mkEnv 3 4600) 0 H Hrefl eq_refl)
    as (e2 & He2 & _ & _ & Hpast).
  destruct (no_second_vote 1 1 (mkEnv 3 1003) demo_voted2 demo_voted3 _
              demo_ended (mkEnv 3 2000) 0 H demo_steps_ended eq_refl)
    as (e3 & He3 & _ & Hended & _).
  destruct Hopen as [-> _].
  { vm_compute. reflexivity. }
  { apply N.ltb_lt. vm_compute. reflexivity. }
  destruct Hpast as [-> _].
  { vm_compute. reflexivity. }
  { apply N.leb_le. vm_compute. reflexivity. }
  destruct Hended as [-> _].
  { vm_compute. reflexivity. }
  split; [exact He1|]. split; [exact He2 | exact He3].
Defined.

Lemma step_count_grows s s' k (i : nat) c :
  step s s' ->
  Poll.voteCounts (poll_at s k) !! i = Some c ->
  exists c', Poll.voteCounts (poll_at s' k) !! i = Some c' /\ c <= c' /\ c' <= c + 1.
Proof.
  intros Hstep Hc.
  destruct (step_poll s s' k Hstep)
    as [-> | [(q & opts & who & dl & Hn) | [(who & j & c0 & Hv) | He]]].
  - exists c. split; [assumption | lia].
  - destruct Hn as (_ & _ & _ & _ & _ & _ & _ & _ & ->). simpl.
    exists c. split; [|lia]. apply lookup_app_l_Some. exact Hc.
  - destruct Hv as (_ & _ & _ & _ & _ & Hc0 & ->). simpl.
    destruct (decide (i = N.to_nat j)) as [->|Hne].
    + rewrite Hc0 in Hc. injection Hc as <-.
      exists (c0 + 1). split; [|lia].
      apply list_lookup_insert_eq. by apply lookup_lt_Some in Hc0.
    + exists c. split; [|lia]. by rewrite list_lookup_insert_ne.
  - destruct He as (_ & _ & ->). exists c. split; [assumption | lia].
Qed.

(** X7. No count ever goes down: whatever calls follow, every entry of
    [voteCounts] of every poll is still there and at least what it was; one
    call raises an entry by at most 1. *)
Theorem counts_never_decrease s s' k (i : nat) c :
  steps s s' ->
  Poll.voteCounts (poll_at s k) !! i = Some c ->
  (exists c', Poll.voteCounts (poll_at s' k) !! i = Some c' /\ c <= c') /\
  (step s s' ->
   exists c', Poll.voteCounts (poll_at s' k) !! i = Some c' /\ c' <= c + 1).
Proof.
  intros Hsteps Hc. split.
  - revert c Hc. induction Hsteps as [s | s s1 s2 Hstep _ IH]; intros c Hc.
    + exists c. split; [assumption | lia].
    + destruct (step_count_grows s s1 k i c Hstep Hc) as (c1 & Hc1 & Hle & _).
      destruct (IH c1 Hc1) as (c2 & Hc2 & Hle2).
      exists c2. split; [assumption | lia].
  - intros Hstep.
    destruct (step_count_grows s s' k i c Hstep Hc) as (c1 & Hc1 & _ & Hle).
    eauto.
Qed.

Lemma counts_never_decrease_witness :
  steps demo_created demo_voted3 /\
  Poll.voteCounts (poll_at demo_created 1) !! 0%nat = Some 0 /\
  exists c', Poll.voteCounts (poll_at demo_voted3 1) !! 0%nat = Some c' /\ 0 <= c'.
Proof.
  assert (Poll.voteCounts (poll_at demo_created 1) !! 0%nat = Some 0) as Hc
    by (vm_compute; reflexivity).
  split; [exact demo_steps_voted|]. split; [exact Hc|].
  destruct (counts_never_decrease demo_created demo_voted3 1 0%nat 0
              demo_steps_voted Hc) as [Hgrow _].
  exact Hgrow.
Defined.

(** ** The shape of stored polls *)

Lemma elem_of_choosers p i a :
  a ∈ choosers p i <->
  a ∈ voters p /\ mapping_get 0 (Poll.voterChoice p) a = i.
Proof. unfold choosers. rewrite elem_of_filter. tauto. Qed.

Lemma choosers_voted_same who i count p :
  who ∉ voters p ->
  choosers (voted_poll who i count p) i = {[who]} ∪ choosers p i.
Proof.
  intros Hnew. apply set_eq. intros a.
  rewrite elem_of_union, elem_of_singleton, !elem_of_choosers, voters_voted,
    elem_of_union, elem_of_singleton. simpl.
  destruct (decide (a = who)) as [->|Hne].
  - rewrite mapping_get_insert_eq. tauto.
  - rewrite mapping_get_insert_ne by congruence. tauto.
Qed.

Lemma choosers_voted_other who i j count p :
  who ∉ voters p -> j <> i ->
  choosers (voted_poll who i count p) j = choosers p j.
Proof.
  intros Hnew Hj. apply set_eq. intros a.
  rewrite !elem_of_choosers, voters_voted, elem_of_union, elem_of_singleton.
  simpl. destruct (decide (a = who)) as [->|Hne].
  - rewrite mapping_get_insert_eq. split; [intros [_ ?]; congruence | tauto].
  - rewrite mapping_get_insert_ne by congruence. tauto.
Qed.

Lemma choosers_no_voters p i : voters p = ∅ -> choosers p i = ∅.
Proof.
  intros Hv. apply set_eq. intros a. rewrite elem_of_choosers, Hv.
  split; [intros [?%not_elem_of_empty _]; done | by intros ?%not_elem_of_empty].
Qed.

Lemma poll_histogram_ok_zero : poll_histogram_ok Poll.zero.
Proof. intros i count H. simpl in H. by rewrite lookup_nil in H. Qed.

Lemma poll_histogram_ok_created k q opts who deadline :
  poll_histogram_ok (created_poll k q opts who deadline Poll.zero).
Proof.
  intros i count H. simpl in H. apply lookup_replicate in H as [-> _].
  rewrite choosers_no_voters; [by rewrite size_empty|].
  apply voters_created.
Qed.

Lemma poll_histogram_ok_voted who i count p :
  mapping_get false (Poll.hasVoted p) who = false ->
  Poll.voteCounts p !! N.to_nat i = Some count ->
  poll_histogram_ok p -> poll_histogram_ok (voted_poll who i count p).
Proof.
  intros Hnew Hcount Hp j c Hc.
  assert (who ∉ voters p) as Hout by (rewrite elem_of_voters; congruence).
  simpl in Hc. destruct (decide (j = N.to_nat i)) as [->|Hne].
  - rewrite list_lookup_insert_eq in Hc by (by apply lookup_lt_Some in Hcount).
    injection Hc as <-. rewrite N2Nat.id, choosers_voted_same by assumption.
    rewrite size_union, size_singleton.
    + pose proof (Hp _ _ Hcount) as Hsz. rewrite N2Nat.id in Hsz. lia.
    + apply disjoint_singleton_l. rewrite elem_of_choosers. tauto.
  - rewrite list_lookup_insert_ne in Hc by congruence.
    rewrite choosers_voted_other; [by apply Hp | assumption | lia].
Qed.

Lemma reachable_histogram s k : reachable s -> poll_histogram_ok (poll_at s k).
Proof.
  intros Hs. revert k. induction Hs as [|s s' Hs IH Hstep]; intros k.
  - exact poll_histogram_ok_zero.
  - destruct (step_poll s s' k Hstep)
      as [-> | [(q & opts & who & dl & Hn) | [(who & i & c & Hv) | He]]].
    + apply IH.
    + destruct Hn as (Hk & _ & _ & _ & _ & _ & _ & _ & ->).
      rewrite poll_at_absent; [apply poll_histogram_ok_created|].
      apply (ok_absent s (reachable_ok s Hs)), exists_poll_false. lia.
    + destruct Hv as (_ & _ & _ & Hnew & _ & Hc & ->).
      by apply poll_histogram_ok_voted.
    + destruct He as (_ & _ & ->). apply IH.
Qed.

Lemma step_exists_poll_inv s s' k :
  step s s' -> exists_poll s' k = true ->
  exists_poll s k = true \/ k = pollCount s + 1.
Proof.
  intros Hstep. rewrite !exists_poll_iff.
  destruct (step_pollCount s s' Hstep) as [-> | ->]; lia.
Qed.

Lemma reachable_origin s k :
  reachable s -> exists_poll s k = true -> poll_origin_ok (poll_at s k).
Proof.
  intros Hs. revert k. induction Hs as [|s s' Hs IH Hstep]; intros k Hk.
  - apply exists_poll_iff in Hk. simpl in Hk. lia.
  - destruct (step_poll s s' k Hstep)
      as [Hsame | [(q & opts & who & dl & Hn) | [(who & i & c & Hv) | He]]].
    + rewrite Hsame.
      destruct (step_exists_poll_inv s s' k Hstep Hk) as [Hold | Hnew];
        [by apply IH|].
      exfalso.
      destruct (step_poll s s' k Hstep)
        as [_ | [(q & opts & who & dl & Hn) | [(who & i & c & Hv) | He]]].
      * destruct (step_inv s s' Hstep)
          as [(env & q & opts & d & Hc) | [(env & j & i & c & Hv) | (env & j & He)]];
          cbv zeta in *.
        -- destruct Hc as (_ & _ & _ & _ & _ & _ & _ & Hs').
           rewrite Hs', Hnew, poll_at_store_eq in Hsame.
           apply (f_equal Poll.active) in Hsame. simpl in Hsame.
           rewrite poll_at_absent in Hsame; [discriminate Hsame|].
           apply (ok_absent s (reachable_ok s Hs)), exists_poll_false. lia.
        -- destruct Hv as (_ & _ & _ & _ & _ & _ & _ & Hs').
           rewrite Hs' in Hk. apply exists_poll_iff in Hk. simpl in Hk. lia.
        -- destruct He as (_ & _ & _ & _ & Hs').
           rewrite Hs' in Hk. apply exists_poll_iff in Hk. simpl in Hk. lia.
      * destruct Hn as (_ & _ & _ & _ & _ & _ & _ & _ & Hcr).
        rewrite Hcr in Hsame. apply (f_equal Poll.active) in Hsame.
        simpl in Hsame. rewrite poll_at_absent in Hsame; [discriminate Hsame|].
        apply (ok_absent s (reachable_ok s Hs)), exists_poll_false. lia.
      * destruct Hv as (Hex & _). apply exists_poll_iff in Hex. lia.
      * destruct He as (Hex & _). apply exists_poll_iff in Hex. lia.
    + destruct Hn as (_ & _ & _ & _ & _ & Hwho & Hlo & Hhi & ->).
      repeat split; assumption.
    + destruct Hv as (Hex & _ & _ & _ & _ & _ & ->). apply (IH k Hex).
    + destruct He as (Hex & _ & ->). apply (IH k Hex).
Qed.

(** X1. In every storage the contract can reach, the poll stored under an
    existing id [k] has [id = k], between 2 and 10 options, none of them
    empty, exactly one count per option, an address as [creator] and an
    [endTime] of at least 60 that is a [uint256]; under every other key the
    storage holds the zero poll. *)
Theorem stored_polls_wellformed s k :
  reachable s ->
  let p := poll_at s k in
  (exists_poll s k = true ->
     Poll.id p = k /\
     2 <= len (Poll.options p) /\ len (Poll.options p) <= 10 /\
     Forall (fun o => 0 < bytes_length o) (Poll.options p) /\
     len (Poll.voteCounts p) = len (Poll.options p) /\
     Poll.creator p <= MAX_ADDRESS /\
     60 <= Poll.endTime p /\ Poll.endTime p <= MAX_UINT256) /\
  (exists_poll s k = false -> p = Poll.zero).
Proof.
  intros Hs. cbv zeta. split.
  - intros Hk.
    pose proof (ledger_ok_poll s k (reachable_ok s Hs) Hk) as Hp.
    destruct (reachable_origin s k Hs Hk) as (Hcr & Hlo & Hhi).
    pose proof (ok_options _ _ Hp). pose proof (ok_lengths _ _ Hp) as Hlen.
    unfold len. rewrite <- Hlen.
    split; [exact (ok_id _ _ Hp)|]. split; [lia|]. split; [lia|].
    split; [apply forallb_nonempty, (ok_nonempty _ _ Hp)|].
    repeat split; assumption.
  - intros Hk. apply poll_at_absent, (ok_absent s (reachable_ok s Hs)), Hk.
Qed.

Lemma stored_polls_wellformed_witness :
  reachable demo_three /\
  Poll.id (poll_at demo_three 3) = 3 /\
  poll_at demo_three 4 = Poll.zero.
Proof.
  split; [exact demo_three_reachable|].
  destruct (stored_polls_wellformed demo_three 3 demo_three_reachable)
    as [Hin _].
  destruct (stored_polls_wellformed demo_three 4 demo_three_reachable)
    as [_ Hout].
  split.
  - apply Hin. vm_compute. reflexivity.
  - apply Hout. vm_compute. reflexivity.
Defined.

(** X8. In every reachable storage each count of each poll is the number of
    identities whose recorded choice is that option: [voteCounts[i]] is the
    number of addresses [a] with [hasVoted[a]] set and [voterChoice[a] = i]. *)
Theorem tally_is_histogram s k (i : nat) count :
  reachable s ->
  Poll.voteCounts (poll_at s k) !! i = Some count ->
  count = N.of_nat (size (choosers (poll_at s k) (N.of_nat i))) /\
  (forall a, a ∈ choosers (poll_at s k) (N.of_nat i) <->
     mapping_get false (Poll.hasVoted (poll_at s k)) a = true /\
     mapping_get 0 (Poll.voterChoice (poll_at s k)) a = N.of_nat i).
Proof.
  intros Hs Hc. split.
  - by apply (reachable_histogram s k Hs).
  - intros a. by rewrite elem_of_choosers, elem_of_voters.
Qed.

Lemma tally_is_histogram_witness :
  reachable demo_tie /\
  Poll.voteCounts (poll_at demo_tie 1) !! 2%nat = Some 2 /\
  size (choosers (poll_at demo_tie 1) 2) = 2%nat.
Proof.
  assert (Poll.voteCounts (poll_at demo_tie 1) !! 2%nat = Some 2) as Hc
    by (vm_compute; reflexivity).
  split; [exact demo_tie_reachable|]. split; [exact Hc|].
  destruct (tally_is_histogram demo_tie 1 2%nat 2 demo_tie_reachable Hc)
    as [Hsize _].
  apply Nat2N.inj. symmetry. exact Hsize.
Defined.

(** X9. [getVoterChoice(k, a)] on a reachable storage: for an id that does
    not exist it reverts with "Poll does not exist"; for an address without
    a vote record it reverts with "Address has not voted", so the index 0 it
    would read from the mapping is never mistaken for a vote; for an address
    with a vote record it returns an index below [options.length] whose
    count is at least 1. *)
Theorem getVoterChoice_cases s k a env :
  reachable s ->
  (exists_poll s k = false ->
     getVoterChoice k a env s = Err (Revert "Poll does not exist")) /\
  (hasVoted k a env s = Ok (false, s, []) ->
     getVoterChoice k a env s = Err (Revert "Address has not voted")) /\
  (hasVoted k a env s = Ok (true, s, []) ->
     exists i count,
       getVoterChoice k a env s = Ok (i, s, []) /\
       i < len (Poll.options (poll_at s k)) /\
       Poll.voteCounts (poll_at s k) !! N.to_nat i = Some count /\
       1 <= count).
Proof.
  intros Hs. rewrite hasVoted_eq, getVoterChoice_eq.
  split; [|split].
  - intros ->. reflexivity.
  - destruct (exists_poll s k); simpl; [|discriminate].
    intros H. injection H as ->. reflexivity.
  - destruct (exists_poll s k) eqn:Hk; simpl; [|discriminate].
    intros H. injection H as Ha. rewrite Ha. simpl.
    pose proof (ledger_ok_poll s k (reachable_ok s Hs) Hk) as Hp.
    assert (a ∈ voters (poll_at s k)) as Hin by (by apply elem_of_voters).
    pose proof (ok_choice _ _ Hp a Hin) as Hi.
    set (i := mapping_get 0 (Poll.voterChoice (poll_at s k)) a) in *.
    destruct (lookup_lt_is_Some_2 (Poll.voteCounts (poll_at s k)) (N.to_nat i))
      as [count Hc].
    { rewrite <- (ok_lengths _ _ Hp). unfold len in Hi. lia. }
    exists i, count. split; [reflexivity|]. split; [exact Hi|].
    split; [exact Hc|].
    pose proof (reachable_histogram s k Hs _ _ Hc) as Hsz.
    rewrite N2Nat.id in Hsz.
    assert (a ∈ choosers (poll_at s k) i) as Hch
      by (apply elem_of_choosers; split; [assumption | reflexivity]).
    assert (size (choosers (poll_at s k) i) <> 0%nat) as Hne.
    { intros Hz. apply size_empty_inv in Hz.
      apply (not_elem_of_empty (C := gset N) a). by rewrite <- Hz. }
    lia.
Qed.

Lemma getVoterChoice_cases_witness :
  reachable demo_voted3 /\
  getVoterChoice 7 1 alice demo_voted3 = Err (Revert "Poll does not exist") /\
  getVoterChoice 1 9 alice demo_voted3 = Err (Revert "Address has not voted") /\
  exists i count,
    getVoterChoice 1 3 alice demo_voted3 = Ok (i, demo_voted3, []) /\
    i < len (Poll.options (poll_at demo_voted3 1)) /\
    Poll.voteCounts (poll_at demo_voted3 1) !! N.to_nat i = Some count /\
    1 <= count.
Proof.
  split; [exact demo_voted3_reachable|].
  destruct (getVoterChoice_cases demo_voted3 7 1 alice demo_voted3_reachable)
    as [Hmissing _].
  destruct (getVoterChoice_cases demo_voted3 1 9 alice demo_voted3_reachable)
    as [_ [Hnot _]].
  destruct (getVoterChoice_cases demo_voted3 1 3 alice demo_voted3_reachable)
    as [_ [_ Hyes]].
  split; [|split].
  - apply Hmissing. vm_compute. reflexivity.
  - apply Hnot. vm_compute. reflexivity.
  - apply Hyes. vm_compute. reflexivity.
Defined.

(** ** The views on reachable storage *)

Lemma getPoll_reachable k env s :
  reachable s -> exists_poll s k = true ->
  getPoll k env s =
    Ok (mkPollInfo (Poll.id (poll_at s k)) (Poll.question (poll_at s k))
          (Poll.options (poll_at s k)) (Poll.voteCounts (poll_at s k))
          (Poll.creator (poll_at s k)) (Poll.endTime (poll_at s k))
          (open_at env s k) (sum_counts (Poll.voteCounts (poll_at s k))),
        s, []).
Proof.
  intros Hs Hk.
  pose proof (ledger_ok_poll s k (reachable_ok s Hs) Hk) as Hp.
  unfold getPoll, pollExists. unfold bind at 1. unfold bind at 1.
  unfold sload_pollCount at 1. unfold require at 1.
  fold (exists_poll s k). rewrite Hk.
  unfold bind at 1. unfold sload_poll at 1.
  unfold bind at 1. rewrite getPoll_loop.
  - reflexivity.
  - pose proof (ok_options _ _ Hp). pose proof (ok_lengths _ _ Hp).
    pose proof max_uint256_ge_duration. unfold len. lia.
  - pose proof (poll_ok_sum_bound _ _ Hp). pose proof max_address_lt_uint256. lia.
Qed.

Lemma getPoll_missing k env s :
  exists_poll s k = false -> getPoll k env s = Err (Revert "Poll does not exist").
Proof.
  intros Hk. unfold getPoll, pollExists. unfold bind at 1. unfold bind at 1.
  unfold sload_pollCount at 1. unfold require at 1.
  fold (exists_poll s k). by rewrite Hk.
Qed.

Lemma getWinner_reachable k env s :
  reachable s -> exists_poll s k = true ->
  exists w text m,
    getWinner k env s = Ok ((w, text, m), s, []) /\
    Poll.options (poll_at s k) !! N.to_nat w = Some text /\
    leftmost_max (Poll.voteCounts (poll_at s k)) w m.
Proof.
  intros Hs Hk.
  pose proof (ledger_ok_poll s k (reachable_ok s Hs) Hk) as Hp.
  pose proof (ok_options _ _ Hp) as Hopts.
  pose proof (ok_lengths _ _ Hp) as Hlen.
  destruct (getWinner_loop (Poll.voteCounts (poll_at s k)) env s)
    as (m & w & Hloop & Hmax).
  { lia. }
  { pose proof max_uint256_ge_duration. unfold len. lia. }
  destruct (lookup_lt_is_Some_2 (Poll.options (poll_at s k)) (N.to_nat w))
    as [text Htext].
  { rewrite Hlen. destruct Hmax as [Hw _]. by apply lookup_lt_Some in Hw. }
  exists w, text, m. split; [|split; assumption].
  unfold getWinner, pollExists. unfold bind at 1. unfold bind at 1.
  unfold sload_pollCount at 1. unfold require at 1.
  fold (exists_poll s k). rewrite Hk.
  unfold bind at 1. unfold sload_poll at 1.
  unfold bind at 1. rewrite Hloop. simpl fst. simpl snd.
  unfold bind at 1. unfold lift at 1.
  rewrite (array_get_ok _ _ _ Htext). reflexivity.
Qed.

(** X10. On a reachable storage, for a sender that is an address, the views
    decide whether a vote is accepted: [vote(k, i)] succeeds exactly when
    [getPoll(k)] returns with [active] set and more than [i] options and
    [hasVoted(k, sender)] returns [false]. *)
Theorem vote_accepted_iff k i env s :
  reachable s -> wf_env env ->
  (exists s' ev, vote k i env s = Ok (tt, s', ev)) <->
  (exists info,
     getPoll k env s = Ok (info, s, []) /\
     info_active info = true /\ i < len (info_options info)) /\
  hasVoted k (msg_sender env) env s = Ok (false, s, []).
Proof.
  intros Hs Henv. split.
  - intros (s' & ev & H).
    apply vote_Ok_inv in H as (Hk & Hact & Hts & Hnew & Hi & _).
    split.
    + eexists. split; [by apply getPoll_reachable|]. simpl.
      split; [|exact Hi]. unfold open_at. rewrite Hact.
      by apply N.ltb_lt in Hts as ->.
    + rewrite hasVoted_eq, Hk, Hnew. reflexivity.
  - intros [(info & Hget & Hact & Hi) Hvoted].
    destruct (exists_poll s k) eqn:Hk.
    2:{ rewrite getPoll_missing in Hget by assumption. discriminate Hget. }
    rewrite getPoll_reachable in Hget by assumption.
    injection Hget as <-. simpl in Hact, Hi.
    unfold open_at in Hact. apply andb_true_iff in Hact as [Hact Hts].
    apply N.ltb_lt in Hts.
    rewrite hasVoted_eq, Hk in Hvoted. simpl in Hvoted.
    injection Hvoted as Hnew.
    destruct (vote_succeeds k i env s Hs Henv Hk Hact Hts Hnew Hi)
      as (count & _ & ->).
    eauto.
Qed.

Lemma vote_accepted_iff_witness :
  reachable demo_voted2 /\ wf_env (mkEnv 3 1003) /\
  exists s' ev, vote 1 1 (mkEnv 3 1003) demo_voted2 = Ok (tt, s', ev).
Proof.
  assert (wf_env (mkEnv 3 1003)) as Henv by (apply wf_env_small; lia).
  split; [exact demo_voted2_reachable|]. split; [exact Henv|].
  apply (vote_accepted_iff 1 1 (mkEnv 3 1003) demo_voted2
           demo_voted2_reachable Henv).
  split.
  - eexists. split; [vm_compute; reflexivity|].
    split; vm_compute; reflexivity.
  - vm_compute. reflexivity.
Defined.

(** ** What a new poll looks like *)

Lemma leftmost_max_zeros n w m :
  leftmost_max (replicate n 0) w m -> w = 0 /\ m = 0.
Proof.
  intros (Hw & _ & Hlt).
  apply lookup_replicate in Hw as [-> Hn]. split; [|reflexivity].
  destruct (decide (w = 0)) as [|Hne]; [assumption|].
  assert (replicate n 0 !! 0%nat = Some 0) as H0
    by (apply lookup_replicate; split; [reflexivity | lia]).
  specialize (Hlt 0%nat 0 ltac:(lia) H0). lia.
Qed.

(** X11. Create, then read back.  On a reachable storage, right after a
    successful [createPoll] that returned [k], at the same timestamp:
    [getPoll(k)] returns the question, the options and the sender that were
    passed in, one zero count per option, [endTime = timestamp + 60 *
    duration], [active = true] and [totalVotes = 0]; [getWinner(k)] returns
    index 0 with the first option and the count 0; [hasVoted(k, a)] is
    [false] and [getVoterChoice(k, a)] reverts for every address [a]. *)
Theorem createPoll_read_back q opts d env s k s' ev :
  reachable s -> wf_env env ->
  createPoll q opts d env s = Ok (k, s', ev) ->
  getPoll k env s' =
    Ok (mkPollInfo k q opts (replicate (length opts) 0) (msg_sender env)
          (block_timestamp env + d * 60) true 0, s', []) /\
  (exists first, opts !! 0%nat = Some first /\
                 getWinner k env s' = Ok ((0, first, 0), s', [])) /\
  (forall a env', hasVoted k a env' s' = Ok (false, s', [])) /\
  (forall a env', getVoterChoice k a env' s' =
                    Err (Revert "Address has not voted")).
Proof.
  intros Hs Henv Hcall.
  assert (reachable s') as Hs'
    by (eapply reachable_step; [exact Hs | by eapply step_createPoll]).
  apply createPoll_Ok_inv in Hcall
    as (_ & Hlo & Hhi & Hd & _ & Hne & Hk & Hmax & Hdl & Hst & _).
  cbv zeta in *.
  assert (poll_at s k = Poll.zero) as Hzero.
  { apply poll_at_absent, (ok_absent s (reachable_ok s Hs)), exists_poll_false.
    lia. }
  assert (poll_at s' k =
            created_poll k q opts (msg_sender env)
              (block_timestamp env + d * 60) Poll.zero) as Hp.
  { rewrite Hst, poll_at_store_eq, Hzero. reflexivity. }
  assert (exists_poll s' k = true) as Hex.
  { apply exists_poll_iff. rewrite Hst. simpl. lia. }
  split; [|split; [|split]].
  - rewrite getPoll_reachable by assumption. unfold open_at. rewrite Hp. simpl.
    rewrite sum_counts_replicate_0.
    by rewrite (proj2 (N.ltb_lt (block_timestamp env)
                         (block_timestamp env + d * 60))) by lia.
  - destruct (getWinner_reachable k env s' Hs' Hex)
      as (w & text & m & Hw & Htext & Hmaxw).
    rewrite Hp in Htext, Hmaxw. simpl in Htext, Hmaxw.
    apply leftmost_max_zeros in Hmaxw as [-> ->].
    exists text. split; [exact Htext | exact Hw].
  - intros a env'. rewrite hasVoted_eq, Hex, Hp. reflexivity.
  - intros a env'. rewrite getVoterChoice_eq, Hex, Hp. reflexivity.
Qed.

Lemma createPoll_read_back_witness :
  reachable genesis /\ wf_env alice /\
  createPoll "best language?" demo_options 60 alice genesis =
    Ok (1, demo_created, [PollCreated 1 "best language?" 100 4600]) /\
  getPoll 1 alice demo_created =
    Ok (mkPollInfo 1 "best language?" demo_options [0; 0; 0; 0] 100 4600 true 0,
        demo_created, []).
Proof.
  assert (wf_env alice) as Henv by (apply wf_env_small; lia).
  assert (createPoll "best language?" demo_options 60 alice genesis =
            Ok (1, demo_created, [PollCreated 1 "best language?" 100 4600]))
    as Hcall by (vm_compute; reflexivity).
  split; [exact reachable_genesis|]. split; [exact Henv|].
  split; [exact Hcall|].
  destruct (createPoll_read_back _ _ _ _ _ _ _ _ reachable_genesis Henv Hcall)
    as [Hget _].
  exact Hget.
Defined.

(** X12. [createPoll] writes one slot only: a successful call raises
    [pollCount] by one, returns the new [pollCount], and leaves the poll
    under every other key, so every poll that existed, as it was. *)
Theorem createPoll_frame q opts d env s k s' ev :
  createPoll q opts d env s = Ok (k, s', ev) ->
  k = pollCount s + 1 /\ pollCount s' = k /\
  (forall j, j <> k -> polls s' !! j = polls s !! j) /\
  (forall j, exists_poll s j = true -> poll_at s' j = poll_at s j).
Proof.
  intros Hcall.
  apply createPoll_Ok_inv in Hcall
    as (_ & _ & _ & _ & _ & _ & Hk & _ & _ & -> & _).
  split; [exact Hk|]. split; [reflexivity|]. split.
  - intros j Hj. simpl. by apply lookup_insert_ne.
  - intros j Hj. apply exists_poll_iff in Hj.
    rewrite poll_at_store_ne by lia. reflexivity.
Qed.

Lemma createPoll_frame_witness :
  createPoll "tabs or spaces?" ["tabs"; "spaces"] 30 (mkEnv 7 2000) demo_voted3 =
    Ok (2, run_call (mkEnv 7 2000)
             (CreatePoll "tabs or spaces?" ["tabs"; "spaces"] 30) demo_voted3,
        [PollCreated 2 "tabs or spaces?" 7 3800]) /\
  poll_at (run_call (mkEnv 7 2000)
             (CreatePoll "tabs or spaces?" ["tabs"; "spaces"] 30) demo_voted3) 1 =
    poll_at demo_voted3 1.
Proof.
  assert (createPoll "tabs or spaces?" ["tabs"; "spaces"] 30 (mkEnv 7 2000)
            demo_voted3 =
          Ok (2, run_call (mkEnv 7 2000)
                   (CreatePoll "tabs or spaces?" ["tabs"; "spaces"] 30) demo_voted3,
              [PollCreated 2 "tabs or spaces?" 7 3800])) as Hcall
    by (vm_compute; reflexivity).
  split; [exact Hcall|].
  destruct (createPoll_frame _ _ _ _ _ _ _ _ Hcall) as (_ & _ & _ & Hold).
  apply Hold. vm_compute. reflexivity.
Defined.

(** X13. Every successful state-changing call logs exactly one event:
    [createPoll] logs [PollCreated] with the new id, the question, the
    sender and the [endTime] it stored; [vote] logs [VoteCast] with the poll,
    the sender and the index; [endPoll] logs [PollEnded] with the poll. *)
Theorem one_event_per_call env s s' ev :
  (forall q opts d k,
     createPoll q opts d env s = Ok (k, s', ev) ->
     ev = [PollCreated (pollCount s') q (msg_sender env)
             (Poll.endTime (poll_at s' k))] /\ k = pollCount s') /\
  (forall k i,
     vote k i env s = Ok (tt, s', ev) -> ev = [VoteCast k (msg_sender env) i]) /\
  (forall k,
     endPoll k env s = Ok (tt, s', ev) -> ev = [PollEnded k]).
Proof.
  split; [|split].
  - intros q opts d k H.
    apply createPoll_Ok_inv in H as (_ & _ & _ & _ & _ & _ & _ & _ & _ & -> & ->).
    rewrite poll_at_store_eq. simpl. split; reflexivity.
  - intros k i H.
    by apply vote_Ok_inv in H as (_ & _ & _ & _ & _ & count & _ & _ & _ & ->).
  - intros k H. by apply endPoll_Ok_inv in H as (_ & _ & _ & _ & ->).
Qed.

Lemma one_event_per_call_witness :
  vote 1 1 (mkEnv 3 1003) demo_voted2 = Ok (tt, demo_voted3, [VoteCast 1 3 1]) /\
  [VoteCast 1 3 1] = [VoteCast 1 (msg_sender (mkEnv 3 1003)) 1].
Proof.
  assert (vote 1 1 (mkEnv 3 1003) demo_voted2 =
            Ok (tt, demo_voted3, [VoteCast 1 3 1])) as H
    by (vm_compute; reflexivity).
  split; [exact H|].
  destruct (one_event_per_call (mkEnv 3 1003) demo_voted2 demo_voted3
              [VoteCast 1 3 1]) as (_ & Hvote & _).
  exact (Hvote 1 1 H).
Defined.

(** ** Views write nothing *)

Lemma read_only_ret {A} (a : A) : read_only (ret a).
Proof. intros env s a' s' ev H. injection H as _ <- <-. by split. Qed.

Lemma read_only_lift {A} (r : Result A) : read_only (lift r).
Proof.
  intros env s a' s' ev H. unfold lift in H.
  destruct r; [|discriminate H]. injection H as _ <- <-. by split.
Qed.

Lemma read_only_require b reason : read_only (require b reason).
Proof.
  intros env s a' s' ev H. unfold require in H.
  destruct b; [|discriminate H]. injection H as _ <- <-. by split.
Qed.

Lemma read_only_sload_pollCount : read_only sload_pollCount.
Proof. intros env s a' s' ev H. injection H as _ <- <-. by split. Qed.

Lemma read_only_sload_poll k : read_only (sload_poll k).
Proof. intros env s a' s' ev H. injection H as _ <- <-. by split. Qed.

Lemma read_only_timestamp : read_only timestamp.
Proof. intros env s a' s' ev H. injection H as _ <- <-. by split. Qed.

Lemma read_only_bind {A B} (m : Tx A) (f : A -> Tx B) :
  read_only m -> (forall a, read_only (f a)) -> read_only (bind m f).
Proof.
  intros Hm Hf env s b s' ev H. unfold bind in H.
  destruct (m env s) as [[[a s1] ev1]|e] eqn:Hm1; [|discriminate H].
  destruct (Hm _ _ _ _ _ Hm1) as [-> ->].
  destruct (f a env s) as [[[b' s2] ev2]|e] eqn:Hf1; [|discriminate H].
  destruct (Hf _ _ _ _ _ _ Hf1) as [-> ->].
  injection H as _ <- <-. by split.
Qed.

Lemma read_only_for_loop {A} n i (body : N -> A -> Tx A) a :
  (forall j b, read_only (body j b)) -> read_only (for_loop n i body a).
Proof.
  intros Hbody. revert i a. induction n as [|n IH]; intros i a; simpl.
  - apply read_only_ret.
  - apply read_only_bind; [apply Hbody|]. intros b.
    apply read_only_bind; [apply read_only_lift|]. intros i'. apply IH.
Qed.

Lemma read_only_pollExists k : read_only (pollExists k).
Proof.
  apply read_only_bind; [apply read_only_sload_pollCount|].
  intros c. apply read_only_require.
Qed.

Lemma read_only_active_now k : read_only (active_now k).
Proof.
  apply read_only_bind; [apply read_only_sload_poll|]. intros p.
  apply read_only_bind; [apply read_only_timestamp|]. intros t.
  apply read_only_ret.
Qed.

(** X14. The five view functions write nothing: whenever [getPoll],
    [hasVoted], [getVoterChoice], [getActivePolls] or [getWinner] returns,
    on any storage at all, the storage is the one it was called on and no
    event is logged. *)
Theorem views_read_only :
  (forall k, read_only (getPoll k)) /\
  (forall k a, read_only (hasVoted k a)) /\
  (forall k a, read_only (getVoterChoice k a)) /\
  read_only getActivePolls /\
  (forall k, read_only (getWinner k)).
Proof.
  split; [|split; [|split; [|split]]].
  - intros k. unfold getPoll.
    apply read_only_bind; [apply read_only_pollExists|]. intros _.
    apply read_only_bind; [apply read_only_sload_poll|]. intros p.
    apply read_only_bind.
    + apply read_only_for_loop. intros j b. unfold getPoll_add.
      apply read_only_bind; [apply read_only_lift|]. intros c.
      apply read_only_lift.
    + intros total. apply read_only_bind; [apply read_only_timestamp|].
      intros t. apply read_only_ret.
  - intros k a. unfold hasVoted.
    apply read_only_bind; [apply read_only_pollExists|]. intros _.
    apply read_only_bind; [apply read_only_sload_poll|]. intros p.
    apply read_only_ret.
  - intros k a. unfold getVoterChoice.
    apply read_only_bind; [apply read_only_pollExists|]. intros _.
    apply read_only_bind; [apply read_only_sload_poll|]. intros p.
    apply read_only_bind; [apply read_only_require|]. intros _.
    apply read_only_bind; [apply read_only_sload_poll|]. intros p'.
    apply read_only_ret.
  - unfold getActivePolls.
    apply read_only_bind; [apply read_only_sload_pollCount|]. intros c.
    apply read_only_bind.
    + apply read_only_for_loop. intros j b. unfold getActivePolls_count.
      apply read_only_bind; [apply read_only_active_now|].
      intros [|]; [apply read_only_lift | apply read_only_ret].
    + intros n. apply read_only_bind; [|intros acc; apply read_only_ret].
      apply read_only_for_loop. intros j [ids idx].
      unfold getActivePolls_collect.
      apply read_only_bind; [apply read_only_active_now|].
      intros [|]; [|apply read_only_ret].
      apply read_only_bind; [apply read_only_lift|]. intros ids'.
      apply read_only_bind; [apply read_only_lift|]. intros idx'.
      apply read_only_ret.
  - intros k. unfold getWinner.
    apply read_only_bind; [apply read_only_pollExists|]. intros _.
    apply read_only_bind; [apply read_only_sload_poll|]. intros p.
    apply read_only_bind.
    + apply read_only_for_loop. intros j [m w]. unfold getWinner_scan.
      apply read_only_bind; [apply read_only_lift|]. intros c.
      destruct (m <? c); [|apply read_only_ret].
      apply read_only_bind; [apply read_only_lift|]. intros c'.
      apply read_only_ret.
    + intros acc. apply read_only_bind; [apply read_only_lift|].
      intros text. apply read_only_ret.
Qed.

(** ** The active list and the other calls *)

(** X15. The two views of activity agree: on a reachable storage with
    [pollCount < 2^256 - 1], at any timestamp, [k] is in the list
    [getActivePolls] returns exactly when [getPoll(k)] returns with
    [active = true]. *)
Theorem active_list_matches_getPoll env s :
  reachable s -> pollCount s < MAX_UINT256 ->
  exists ids,
    getActivePolls env s = Ok (ids, s, []) /\
    forall k, k ∈ ids <->
      exists info, getPoll k env s = Ok (info, s, []) /\ info_active info = true.
Proof.
  intros Hs Hmax. eexists. split; [by apply getActivePolls_eq|].
  intros k. rewrite open_ids_elem, N2Nat.id. split.
  - intros (Hlo & Hhi & Hopen).
    assert (exists_poll s k = true) as Hk by (apply exists_poll_iff; lia).
    eexists. split; [by apply getPoll_reachable | exact Hopen].
  - intros (info & Hget & Hact).
    destruct (exists_poll s k) eqn:Hk.
    + rewrite getPoll_reachable in Hget by assumption.
      injection Hget as <-. simpl in Hact.
      apply exists_poll_iff in Hk. repeat split; [lia | lia | exact Hact].
    + rewrite getPoll_missing in Hget by assumption. discriminate Hget.
Qed.

Lemma active_list_matches_getPoll_witness :
  reachable demo_three /\ pollCount demo_three < MAX_UINT256 /\
  exists ids,
    getActivePolls (mkEnv 9 2000) demo_three = Ok (ids, demo_three, []) /\
    (1 ∈ ids <->
       exists info, getPoll 1 (mkEnv 9 2000) demo_three = Ok (info, demo_three, [])
                    /\ info_active info = true).
Proof.
  assert (pollCount demo_three < MAX_UINT256) as Hmax
    by (apply N.ltb_lt; vm_compute; reflexivity).
  split; [exact demo_three_reachable|]. split; [exact Hmax|].
  destruct (active_list_matches_getPoll (mkEnv 9 2000) demo_three
              demo_three_reachable Hmax) as (ids & Hids & Hiff).
  exists ids. split; [exact Hids | exact (Hiff 1)].
Defined.

Lemma open_ids_ext env s s' n :
  (forall j, open_at env s' j = open_at env s j) ->
  open_ids env s' n = open_ids env s n.
Proof.
  intros Hext. induction n as [|n IH]; [reflexivity|].
  cbn [open_ids]. by rewrite IH, Hext.
Qed.

Lemma open_ids_closed env s s' k n :
  (forall j, j <> k -> open_at env s' j = open_at env s j) ->
  open_at env s' k = false ->
  open_ids env s' n = filter (fun j => j <> k) (open_ids env s n).
Proof.
  intros Hext Hk. induction n as [|n IH]; [reflexivity|].
  cbn [open_ids]. rewrite filter_app, IH. f_equal.
  destruct (decide (N.of_nat (S n) = k)) as [Heq|Hne].
  - rewrite Heq, Hk. destruct (open_at env s k); [|reflexivity].
    by rewrite filter_cons_False by (intros H; by apply H).
  - rewrite Hext by assumption.
    destruct (open_at env s (N.of_nat (S n))); [|reflexivity].
    by rewrite filter_cons_True by assumption.
Qed.

(** X16. How the calls change the list of active polls, for storages with
    [pollCount < 2^256 - 1]: a successful [vote] leaves the list, at any
    timestamp, as it was; a successful [endPoll(k)] removes [k] from it and
    nothing else; a successful [createPoll] appends the new id to the list
    of its own timestamp. *)
Theorem active_list_after_call env s s' ev :
  pollCount s' < MAX_UINT256 ->
  (forall k i env' ids,
     vote k i env' s = Ok (tt, s', ev) ->
     getActivePolls env s = Ok (ids, s, []) ->
     getActivePolls env s' = Ok (ids, s', [])) /\
  (forall k env' ids,
     endPoll k env' s = Ok (tt, s', ev) ->
     getActivePolls env s = Ok (ids, s, []) ->
     getActivePolls env s' = Ok (filter (fun j => j <> k) ids, s', [])) /\
  (forall q opts d k ids,
     createPoll q opts d env s = Ok (k, s', ev) ->
     getActivePolls env s = Ok (ids, s, []) ->
     getActivePolls env s' = Ok (ids ++ [k], s', [])).
Proof.
  intros Hmax. split; [|split].
  - intros k i env' ids Hcall Hget.
    apply vote_Ok_inv in Hcall as (_ & _ & _ & _ & _ & count & _ & _ & Hs' & _).
    assert (pollCount s = pollCount s') as Hcount by (by rewrite Hs').
    rewrite getActivePolls_eq in Hget by lia. injection Hget as <-.
    rewrite getActivePolls_eq by assumption. rewrite <- Hcount.
    do 3 f_equal. apply open_ids_ext. intros j. unfold open_at. rewrite Hs'.
    destruct (decide (k = j)) as [->|Hne].
    + by rewrite poll_at_store_eq.
    + by rewrite poll_at_store_ne.
  - intros k env' ids Hcall Hget.
    apply endPoll_Ok_inv in Hcall as (_ & _ & _ & Hs' & _).
    assert (pollCount s = pollCount s') as Hcount by (by rewrite Hs').
    rewrite getActivePolls_eq in Hget by lia. injection Hget as <-.
    rewrite getActivePolls_eq by assumption. rewrite <- Hcount.
    do 3 f_equal. apply open_ids_closed.
    + intros j Hj. unfold open_at. rewrite Hs'. by rewrite poll_at_store_ne.
    + unfold open_at. rewrite Hs'. by rewrite poll_at_store_eq.
  - intros q opts d k ids Hcall Hget.
    apply createPoll_Ok_inv in Hcall
      as (_ & _ & _ & Hd & _ & _ & Hk & _ & _ & Hs' & _). cbv zeta in Hs'.
    assert (pollCount s' = pollCount s + 1) as Hcount by (rewrite Hs'; simpl; lia).
    rewrite getActivePolls_eq in Hget by lia. injection Hget as <-.
    rewrite getActivePolls_eq by assumption. rewrite Hcount.
    replace (N.to_nat (pollCount s + 1)) with (S (N.to_nat (pollCount s))) by lia.
    cbn [open_ids].
    replace (N.of_nat (S (N.to_nat (pollCount s)))) with k by lia.
    assert (open_at env s' k = true) as ->.
    { unfold open_at. rewrite Hs', poll_at_store_eq. simpl.
      apply N.ltb_lt. lia. }
    do 3 f_equal. f_equal.
    assert (forall n, (N.of_nat n < k) ->
              open_ids env s' n = open_ids env s n) as Hsame.
    { induction n as [|n IH]; intros Hn; [reflexivity|].
      cbn [open_ids]. rewrite IH by lia. f_equal.
      unfold open_at. rewrite Hs', poll_at_store_ne by lia. reflexivity. }
    apply Hsame. lia.
Qed.

Lemma active_list_after_call_witness :
  pollCount demo_three < MAX_UINT256 /\
  getActivePolls (mkEnv 9 1010)
    (run_calls [ (alice, CreatePoll "one?" ["yes"; "no"] 60);
                 (alice, CreatePoll "two?" ["yes"; "no"] 1);
                 (alice, CreatePoll "three?" ["yes"; "no"] 60) ] genesis) =
    Ok ([1; 2; 3],
        run_calls [ (alice, CreatePoll "one?" ["yes"; "no"] 60);
                    (alice, CreatePoll "two?" ["yes"; "no"] 1);
                    (alice, CreatePoll "three?" ["yes"; "no"] 60) ] genesis, []) /\
  getActivePolls (mkEnv 9 1010) demo_three = Ok ([1; 2], demo_three, []).
Proof.
  assert (pollCount demo_three < MAX_UINT256) as Hmax
    by (apply N.ltb_lt; vm_compute; reflexivity).
  set (before := run_calls [ (alice, CreatePoll "one?" ["yes"; "no"] 60);
                    (alice, CreatePoll "two?" ["yes"; "no"] 1);
                    (alice, CreatePoll "three?" ["yes"; "no"] 60) ] genesis).
  assert (getActivePolls (mkEnv 9 1010) before = Ok ([1; 2; 3], before, []))
    as Hbefore by (vm_compute; reflexivity).
  assert (endPoll 3 alice before = Ok (tt, demo_three, [PollEnded 3])) as Hend
    by (vm_compute; reflexivity).
  split; [exact Hmax|]. split; [exact Hbefore|].
  destruct (active_list_after_call (mkEnv 9 1010) before demo_three
              [PollEnded 3] Hmax) as (_ & Hremove & _).
  exact (Hremove 3 alice [1; 2; 3] Hend Hbefore).
Defined.

(** ** The winner and the total *)

Lemma sum_counts_le_max l m :
  (forall j c, l !! j = Some c -> c <= m) ->
  sum_counts l <= N.of_nat (length l) * m.
Proof.
  induction l as [|x l IH]; intros Hle; simpl; [lia|].
  specialize (IH (fun j c H => Hle (S j) c H)).
  pose proof (Hle 0%nat x eq_refl). lia.
Qed.

(** X17. The winner against the total.  On a reachable storage and an
    existing poll, the index [getWinner] returns is below [options.length],
    and its count [m] relates to the [totalVotes] of [getPoll] by
    [m <= totalVotes <= m * options.length]: the winner has at least the
    average share, and its count is 0 exactly when nobody has voted. *)
Theorem winner_share k env s :
  reachable s -> exists_poll s k = true ->
  exists w text m info,
    getWinner k env s = Ok ((w, text, m), s, []) /\
    getPoll k env s = Ok (info, s, []) /\
    w < len (info_options info) /\
    m <= info_totalVotes info /\
    info_totalVotes info <= m * len (info_options info) /\
    (m = 0 <-> info_totalVotes info = 0).
Proof.
  intros Hs Hk.
  destruct (getWinner_reachable k env s Hs Hk)
    as (w & text & m & Hw & Htext & Hm & Hle & _).
  pose proof (ledger_ok_poll s k (reachable_ok s Hs) Hk) as Hp.
  pose proof (ok_lengths _ _ Hp) as Hlen.
  exists w, text, m. eexists.
  split; [exact Hw|]. split; [by apply getPoll_reachable|]. simpl.
  pose proof (sum_counts_lookup_le _ _ _ Hm) as Hlow.
  pose proof (sum_counts_le_max _ _ Hle) as Hhigh.
  apply lookup_lt_Some in Htext.
  unfold len. rewrite Hlen in *. repeat split; lia.
Qed.

Lemma winner_share_witness :
  reachable demo_tie /\
  exists w text m info,
    getWinner 1 alice demo_tie = Ok ((w, text, m), demo_tie, []) /\
    getPoll 1 alice demo_tie = Ok (info, demo_tie, []) /\
    m <= info_totalVotes info /\
    info_totalVotes info <= m * len (info_options info).
Proof.
  split; [exact demo_tie_reachable|].
  assert (exists_poll demo_tie 1 = true) as Hk by (vm_compute; reflexivity).
  destruct (winner_share 1 alice demo_tie demo_tie_reachable Hk)
    as (w & text & m & info & Hw & Hg & _ & Hlo & Hhi & _).
  exists w, text, m, info. repeat split; assumption.
Defined.

(** ** The client *)

Lemma string_length_append (s1 s2 : string) :
  String.length (s1 +:+ s2) = (String.length s1 + String.length s2)%nat.
Proof. induction s1 as [|c s1 IH]; simpl; [reflexivity | by rewrite IH]. Qed.

Lemma not_ended_suffix (s : string) : s +:+ "m left" <> "Ended".
Proof.
  intros H. apply (f_equal String.length) in H.
  rewrite string_length_append in H. simpl in H. lia.
Qed.

(** X18. [getTimeLeft] for integer times within the exact range of
    JavaScript numbers.  With [now = floor(Date.now() / 1000)]: the result
    is "Ended" exactly when [endTime <= now]; otherwise it shows [h] hours
    and [m] minutes with [0 <= m < 60] and
    [3600 h + 60 m <= endTime - now < 3600 h + 60 m + 60], the hours being
    left out when [h = 0]; so less than a minute shows as "0m left". *)
Theorem getTimeLeft_cases date_now endTime :
  (0 <= date_now <= App.MAX_SAFE_INTEGER)%Z ->
  (0 <= endTime <= App.MAX_SAFE_INTEGER)%Z ->
  let now := (date_now / 1000)%Z in
  (App.getTimeLeft date_now endTime = "Ended" <-> (endTime <= now)%Z) /\
  ((now < endTime)%Z ->
   exists h m,
     (0 <= h)%Z /\ (0 <= m < 60)%Z /\
     (3600 * h + 60 * m <= endTime - now < 3600 * h + 60 * m + 60)%Z /\
     App.getTimeLeft date_now endTime =
       if (0 <? h)%Z then pretty h +:+ "h " +:+ pretty m +:+ "m left"
       else pretty m +:+ "m left").
Proof.
  intros _ _. cbv zeta. unfold App.getTimeLeft. cbv zeta.
  set (diff := (endTime - date_now / 1000)%Z).
  split.
  - destruct (diff <=? 0)%Z eqn:Hd.
    + apply Z.leb_le in Hd. split; [intros _; lia | reflexivity].
    + apply Z.leb_gt in Hd. split; [|lia].
      destruct (0 <? diff / 3600)%Z; intros H; exfalso.
      * apply (f_equal String.length) in H.
        rewrite !string_length_append in H. simpl in H. lia.
      * by apply not_ended_suffix in H.
  - intros Hlt.
    assert (0 < diff)%Z as Hd by lia.
    rewrite (proj2 (Z.leb_gt diff 0)) by lia.
    rewrite Z.rem_mod_nonneg by lia.
    exists (diff / 3600)%Z, (diff `mod` 3600 / 60)%Z.
    split; [apply Z.div_pos; lia|].
    pose proof (Z.div_mod diff 3600 ltac:(lia)) as H1.
    pose proof (Z.mod_pos_bound diff 3600 ltac:(lia)) as H2.
    pose proof (Z.div_mod (diff `mod` 3600) 60 ltac:(lia)) as H3.
    pose proof (Z.mod_pos_bound (diff `mod` 3600) 60 ltac:(lia)) as H4.
    assert (0 <= diff `mod` 3600 / 60)%Z by (apply Z.div_pos; lia).
    split; [|split; [|reflexivity]]; fold diff; lia.
Qed.

Lemma getTimeLeft_cases_witness :
  (0 <= 1000999 <= App.MAX_SAFE_INTEGER)%Z /\
  (0 <= 4600 <= App.MAX_SAFE_INTEGER)%Z /\
  (App.getTimeLeft 1000999 1000 = "Ended" <-> (1000 <= 1000999 / 1000)%Z) /\
  App.getTimeLeft 1000999 4600 = "1h 0m left".
Proof.
  assert (0 <= 1000999 <= App.MAX_SAFE_INTEGER)%Z as Hnow
    by (split; apply Z.leb_le; vm_compute; reflexivity).
  assert (0 <= 4600 <= App.MAX_SAFE_INTEGER)%Z as Hend
    by (split; apply Z.leb_le; vm_compute; reflexivity).
  assert (0 <= 1000 <= App.MAX_SAFE_INTEGER)%Z as Hend'
    by (split; apply Z.leb_le; vm_compute; reflexivity).
  split; [exact Hnow|]. split; [exact Hend|]. split.
  - destruct (getTimeLeft_cases 1000999 1000 Hnow Hend') as [Hiff _].
    exact Hiff.
  - vm_compute. reflexivity.
Defined.

Lemma filter_index_ne_past index from (options : list string) :
  (index < from)%nat -> App.filter_index_ne index from options = options.
Proof.
  revert from. induction options as [|o rest IH]; intros from Hlt; simpl.
  - reflexivity.
  - rewrite bool_decide_eq_true_2 by lia. by rewrite IH by lia.
Qed.

Lemma filter_index_ne_delete index from (options : list string) :
  (from <= index)%nat ->
  App.filter_index_ne index from options = delete (index - from)%nat options.
Proof.
  revert from. induction options as [|o rest IH]; intros from Hle; simpl.
  - reflexivity.
  - destruct (decide (from = index)) as [->|Hne].
    + rewrite bool_decide_eq_false_2 by (intros H; by apply H).
      rewrite Nat.sub_diag. simpl. apply filter_index_ne_past. lia.
    + rewrite bool_decide_eq_true_2 by assumption.
      rewrite IH by lia.
      replace (index - from)%nat with (S (index - S from)) by lia.
      reflexivity.
Qed.

Lemma delete_past_end {A} (l : list A) i : (length l <= i)%nat -> delete i l = l.
Proof.
  revert i. induction l as [|x l IH]; intros [|i] Hle; simpl in *;
    [reflexivity | reflexivity | lia |].
  f_equal. apply IH. lia.
Qed.

(** X19. The option list of the form.  On a list of 2 to 10 options,
    [addOption] and [removeOption] keep the length between 2 and 10:
    [addOption] appends one empty option unless there are 10 already;
    [removeOption(i)] deletes the entry at position [i] and no other, unless
    only 2 are left or [i] is not a position; removing the option that was
    just added gives the list back. *)
Theorem form_options_bounds (options : list string) index :
  (2 <= length options <= 10)%nat ->
  (2 <= length (App.addOption options) <= 10)%nat /\
  (2 <= length (App.removeOption index options) <= 10)%nat /\
  App.addOption options =
    (if decide (length options < 10)%nat then options ++ [""] else options) /\
  App.removeOption index options =
    (if decide (2 < length options)%nat then delete index options else options) /\
  ((length options < 10)%nat ->
   App.removeOption (length options) (App.addOption options) = options).
Proof.
  intros Hlen.
  assert (App.addOption options =
            (if decide (length options < 10)%nat then options ++ [""] else options))
    as Hadd.
  { unfold App.addOption.
    destruct (decide (length options < 10)%nat) as [Hlt|Hge].
    - by apply Nat.ltb_lt in Hlt as ->.
    - by rewrite (proj2 (Nat.ltb_ge _ _)) by lia. }
  assert (forall l i, App.removeOption i l =
            (if decide (2 < length l)%nat then delete i l else l)) as Hrem.
  { intros l i. unfold App.removeOption.
    destruct (decide (2 < length l)%nat) as [Hlt|Hge].
    - apply Nat.ltb_lt in Hlt as ->.
      rewrite filter_index_ne_delete by lia. by rewrite Nat.sub_0_r.
    - by rewrite (proj2 (Nat.ltb_ge _ _)) by lia. }
  split; [|split; [|split; [exact Hadd | split; [apply Hrem|]]]].
  - rewrite Hadd. destruct (decide (length options < 10)%nat);
      [rewrite length_app; simpl; lia | lia].
  - rewrite Hrem. destruct (decide (2 < length options)%nat); [|lia].
    destruct (decide (index < length options)%nat) as [Hin|Hout].
    + pose proof (length_delete options index
                    (lookup_lt_is_Some_2 _ _ Hin)) as Hd. lia.
    + rewrite delete_past_end by lia. lia.
  - intros Hlt. rewrite Hadd, Hrem.
    destruct (decide (length options < 10)%nat); [|lia].
    rewrite length_app. simpl.
    destruct (decide (2 < length options + 1)%nat); [|lia].
    by rewrite delete_middle, app_nil_r.
Qed.

Lemma form_options_bounds_witness :
  (2 <= length ["a"; "b"; "c"] <= 10)%nat /\
  App.removeOption 1 ["a"; "b"; "c"] = ["a"; "c"] /\
  App.removeOption 3 (App.addOption ["a"; "b"; "c"]) = ["a"; "b"; "c"].
Proof.
  assert (2 <= length ["a"; "b"; "c"] <= 10)%nat as Hlen by (simpl; lia).
  split; [exact Hlen|].
  destruct (form_options_bounds ["a"; "b"; "c"] 1%nat Hlen)
    as (_ & _ & _ & Hrem & Hback).
  split.
  - rewrite Hrem. reflexivity.
  - apply Hback. simpl. lia.
Defined.

(** X20. What the form submits passes the validation of the contract.  When
    [handleSubmit] calls [onCreatePoll], it passes the question and the
    duration unchanged and the options whose trimmed text is not empty, in
    their order; the question and every option passed are non-empty and
    there are at least 2 options.  If the form holds at most 10 options and
    a duration of 1 to 10080, [createPoll] on these arguments never reverts
    with a reason: it succeeds or panics on overflow. *)
Theorem handleSubmit_passes_validation trim question options duration
    q opts d :
  trim "" = "" ->
  (length options <= 10)%nat -> 0 < duration -> duration <= 10080 ->
  App.handleSubmit trim question options duration = Some (q, opts, d) ->
  q = question /\ d = duration /\
  opts = filter (fun opt => trim opt <> "") options /\
  sublist opts options /\
  0 < bytes_length q /\
  Forall (fun o => 0 < bytes_length o) opts /\
  2 <= len opts /\
  (forall env s reason, createPoll q opts d env s <> Err (Revert reason)).
Proof.
  intros Htrim Hmax Hd0 Hd1 Hsubmit. unfold App.handleSubmit in Hsubmit.
  destruct (bool_decide (trim question <> "")) eqn:Hq; [|discriminate Hsubmit].
  destruct (2 <=? length (filter (fun opt => trim opt <> "") options))%nat
    eqn:Hn; [|discriminate Hsubmit].
  simpl in Hsubmit. injection Hsubmit as <- <- <-.
  apply bool_decide_eq_true in Hq. apply Nat.leb_le in Hn.
  assert (forall o : string, trim o <> "" -> 0 < bytes_length o) as Hnonempty.
  { intros o Ho. destruct o as [|c o]; [congruence|].
    unfold bytes_length. simpl. lia. }
  assert (Forall (fun o => 0 < bytes_length o)
            (filter (fun opt => trim opt <> "") options)) as Hall.
  { apply Forall_forall. intros o Ho. apply list_elem_of_filter in Ho as [Ho _].
    by apply Hnonempty. }
  pose proof (length_filter (fun opt => trim opt <> "") options) as Hle.
  split; [reflexivity|]. split; [reflexivity|]. split; [reflexivity|].
  split; [apply sublist_filter|].
  split; [by apply Hnonempty|]. split; [exact Hall|].
  split; [unfold len; lia|].
  intros env s reason. rewrite createPoll_eq. cbv zeta.
  rewrite (proj2 (N.ltb_lt 0 (bytes_length question))) by (by apply Hnonempty).
  rewrite (proj2 (N.leb_le 2 _)) by (unfold len; lia).
  rewrite (proj2 (N.leb_le _ 10)) by (unfold len; lia).
  rewrite (proj2 (N.ltb_lt 0 duration)) by assumption.
  rewrite (proj2 (N.leb_le duration 10080)) by assumption.
  rewrite (proj2 (forallb_nonempty _)) by assumption.
  simpl.
  destruct (pollCount s + 1 <=? MAX_UINT256); simpl; [|discriminate].
  destruct (block_timestamp env + duration * 60 <=? MAX_UINT256); simpl;
    discriminate.
Qed.

Lemma handleSubmit_passes_validation_witness :
  App.handleSubmit (fun s => s) "best language?" ["JS"; ""; "Rust"] 60 =
    Some ("best language?", ["JS"; "Rust"], 60) /\
  forall env s reason,
    createPoll "best language?" ["JS"; "Rust"] 60 env s <> Err (Revert reason).
Proof.
  assert (App.handleSubmit (fun s => s) "best language?" ["JS"; ""; "Rust"] 60 =
            Some ("best language?", ["JS"; "Rust"], 60)) as Hsubmit
    by reflexivity.
  split; [exact Hsubmit|].
  destruct (handleSubmit_passes_validation (fun s => s) "best language?"
              ["JS"; ""; "Rust"] 60 _ _ _ eq_refl ltac:(simpl; lia)
              ltac:(lia) ltac:(lia) Hsubmit)
    as (_ & _ & _ & _ & _ & _ & _ & Hpass).
  exact Hpass.
Defined.

Lemma foldl_add_sum a l : foldl N.add a l = a + sum_counts l.
Proof.
  revert a. induction l as [|x l IH]; intros a; simpl; [lia|].
  rewrite IH. lia.
Qed.

Lemma totalVotes_sum l : App.totalVotes l = sum_counts l.
Proof. unfold App.totalVotes. by rewrite foldl_add_sum. Qed.

Lemma foldl_max_bounds a l :
  a <= foldl N.max a l /\
  (forall x, x ∈ l -> x <= foldl N.max a l) /\
  (foldl N.max a l = a \/ foldl N.max a l ∈ l).
Proof.
  revert a. induction l as [|x l IH]; intros a; simpl.
  - split; [lia|]. split; [by intros x ?%elem_of_nil | by left].
  - destruct (IH (N.max a x)) as (Hge & Hall & Hin).
    split; [lia|]. split.
    + intros y [->|Hy]%elem_of_cons; [lia | by apply Hall].
    + destruct Hin as [Heq | Hin].
      * destruct (N.max_spec a x) as [[_ Hm] | [_ Hm]]; rewrite Hm in *.
        -- right. rewrite Heq. apply elem_of_cons. by left.
        -- by left.
      * right. apply elem_of_cons. by right.
Qed.

Lemma max_count_leftmost counts w m :
  leftmost_max counts w m -> App.max_count counts = Some m.
Proof.
  intros (Hw & Hle & _). destruct counts as [|c rest].
  - by rewrite lookup_nil in Hw.
  - simpl. f_equal.
    destruct (foldl_max_bounds c rest) as (Hge & Hall & Hin).
    assert (foldl N.max c rest <= m) as Hup.
    { destruct Hin as [-> | Hin].
      - apply (Hle 0%nat). reflexivity.
      - apply list_elem_of_lookup_1 in Hin as [j Hj].
        apply (Hle (S j)). exact Hj. }
    assert (m <= foldl N.max c rest) as Hdown.
    { destruct (N.to_nat w) as [|j] eqn:Hj; simpl in Hw.
      - injection Hw as <-. exact Hge.
      - apply Hall. by eapply list_elem_of_lookup_2. }
    lia.
Qed.

(** X21. The card and the contract agree on the winner.  For a reachable
    storage, an existing poll and counts within the exact range of
    JavaScript numbers: the total the card adds up equals the [totalVotes]
    of [getPoll]; once somebody has voted, the option [getWinner] returns is
    among those the card marks as winning; every option the card marks has
    the winner's count and does not come before the winner; and nothing is
    marked while nobody has voted. *)
Theorem winner_is_highlighted k env s :
  reachable s -> exists_poll s k = true ->
  (Z.of_N (sum_counts (Poll.voteCounts (poll_at s k))) <=
     App.MAX_SAFE_INTEGER)%Z ->
  exists w text m info,
    getWinner k env s = Ok ((w, text, m), s, []) /\
    getPoll k env s = Ok (info, s, []) /\
    App.totalVotes (info_voteCounts info) = info_totalVotes info /\
    (0 < info_totalVotes info ->
       App.isWinning (info_voteCounts info) (N.to_nat w) = true) /\
    (forall j, App.isWinning (info_voteCounts info) j = true ->
               info_voteCounts info !! j = Some m /\
               (N.to_nat w <= j)%nat /\ 0 < info_totalVotes info).
Proof.
  intros Hs Hk _.
  destruct (getWinner_reachable k env s Hs Hk)
    as (w & text & m & Hw & Htext & Hmax).
  pose proof (max_count_leftmost _ _ _ Hmax) as Htop.
  destruct Hmax as (Hm & Hle & Hlt).
  exists w, text, m. eexists.
  split; [exact Hw|]. split; [by apply getPoll_reachable|]. simpl.
  split; [apply totalVotes_sum|]. split.
  - intros Hpos. unfold App.isWinning.
    rewrite Hm, Htop, totalVotes_sum, N.eqb_refl.
    by apply N.ltb_lt in Hpos as ->.
  - intros j Hj. unfold App.isWinning in Hj. rewrite Htop in Hj.
    destruct (Poll.voteCounts (poll_at s k) !! j) as [c|] eqn:Hc;
      [|discriminate Hj].
    apply andb_true_iff in Hj as [Heq Hpos].
    apply N.eqb_eq in Heq as ->. apply N.ltb_lt in Hpos.
    rewrite totalVotes_sum in Hpos.
    split; [reflexivity|]. split; [|exact Hpos].
    destruct (decide (j < N.to_nat w)%nat) as [Hbefore|]; [|lia].
    specialize (Hlt j m Hbefore Hc). lia.
Qed.

Lemma winner_is_highlighted_witness :
  reachable demo_tie /\
  App.isWinning [2; 1; 2] 0 = true /\ App.isWinning [2; 1; 2] 2 = true /\
  exists w text m info,
    getWinner 1 alice demo_tie = Ok ((w, text, m), demo_tie, []) /\
    getPoll 1 alice demo_tie = Ok (info, demo_tie, []) /\
    App.totalVotes (info_voteCounts info) = info_totalVotes info.
Proof.
  split; [exact demo_tie_reachable|].
  split; [reflexivity|]. split; [reflexivity|].
  assert (exists_poll demo_tie 1 = true) as Hk by (vm_compute; reflexivity).
  assert (Z.of_N (sum_counts (Poll.voteCounts (poll_at demo_tie 1))) <=
            App.MAX_SAFE_INTEGER)%Z as Hsafe
    by (apply Z.leb_le; vm_compute; reflexivity).
  destruct (winner_is_highlighted 1 alice demo_tie demo_tie_reachable Hk Hsafe)
    as (w & text & m & info & Hw & Hg & Htotal & _).
  exists w, text, m, info. repeat split; assumption.
Defined.

(** ** Calls on a poll that does not exist *)

(** X22. The id 0 and every id above [pollCount] name no poll: on any
    storage, [vote], [endPoll], [getPoll], [hasVoted], [getVoterChoice] and
    [getWinner] with such an id all revert with "Poll does not exist",
    whoever calls and whatever the other arguments are, and
    [getActivePolls] never lists such an id. *)
Theorem missing_poll_reverts k env s :
  k = 0 \/ pollCount s < k ->
  (forall i, vote k i env s = Err (Revert "Poll does not exist")) /\
  endPoll k env s = Err (Revert "Poll does not exist") /\
  getPoll k env s = Err (Revert "Poll does not exist") /\
  (forall a, hasVoted k a env s = Err (Revert "Poll does not exist")) /\
  (forall a, getVoterChoice k a env s = Err (Revert "Poll does not exist")) /\
  getWinner k env s = Err (Revert "Poll does not exist") /\
  (forall ids s' ev, getActivePolls env s = Ok (ids, s', ev) -> k ∉ ids).
Proof.
  intros Hk. assert (exists_poll s k = false) as Hex
    by (by apply exists_poll_false).
  split; [|split; [|split; [|split; [|split; [|split]]]]].
  - intros i. by rewrite vote_eq, Hex.
  - by rewrite endPoll_eq, Hex.
  - by apply getPoll_missing.
  - intros a. by rewrite hasVoted_eq, Hex.
  - intros a. by rewrite getVoterChoice_eq, Hex.
  - unfold getWinner, pollExists. unfold bind at 1. unfold bind at 1.
    unfold sload_pollCount at 1. unfold require at 1.
    fold (exists_poll s k). by rewrite Hex.
  - intros ids s' ev Hget Hin.
    destruct (decide (pollCount s < MAX_UINT256)) as [Hlt|Hge].
    + rewrite getActivePolls_eq in Hget by assumption.
      injection Hget as <- _ _.
      apply open_ids_elem in Hin. rewrite N2Nat.id in Hin. lia.
    + destruct (decide (pollCount s = MAX_UINT256)) as [Heq|Hne].
      * rewrite getActivePolls_overflow in Hget by assumption.
        discriminate Hget.
      * (* [pollCount] beyond [uint256]: the first pass overflows *)
        assert (forall n i c, MAX_UINT256 + 1 < i + N.of_nat n ->
                  i <= MAX_UINT256 + 1 ->
                  exists e, for_loop n i getActivePolls_count c env s = Err e)
          as Hloop.
        { induction n as [|n IH]; intros i c Hbig Hi; [lia|].
          cbn [for_loop]. unfold bind at 1.
          destruct (getActivePolls_count_outcome i c env s) as [[c' ->] | ->];
            [|eauto].
          unfold bind at 1. unfold lift at 1. unfold checked_add.
          destruct (i + 1 <=? MAX_UINT256) eqn:Hi1; [|eauto].
          apply N.leb_le in Hi1.
          destruct (IH (i + 1) c') as [e ->]; [lia | lia | eauto]. }
        unfold getActivePolls in Hget. unfold bind at 1 in Hget.
        unfold sload_pollCount in Hget. unfold bind at 1 in Hget.
        destruct (Hloop (N.to_nat (pollCount s)) 1 0) as [e He]; [lia | lia |].
        rewrite He in Hget. discriminate Hget.
Qed.

Lemma missing_poll_reverts_witness :
  (0 = 0 \/ pollCount demo_voted3 < 0) /\
  vote 0 0 alice demo_voted3 = Err (Revert "Poll does not exist") /\
  getPoll 2 alice demo_voted3 = Err (Revert "Poll does not exist").
Proof.
  split; [by left|].
  destruct (missing_poll_reverts 0 alice demo_voted3 ltac:(by left))
    as [Hvote _].
  destruct (missing_poll_reverts 2 alice demo_voted3) as (_ & _ & Hget & _).
  { right. apply N.ltb_lt. vm_compute. reflexivity. }
  split; [exact (Hvote 0) | exact Hget].
Defined.
